(** * FastX Voice Generator: WAV encoder, radar visualizer and playback control

    A shallow embedding of the browser front-end
    ([src/App.tsx], [src/components/RadarVisualizer.tsx],
    [src/services/geminiService.ts]) and of the WAV encoder it imports
    from [src/services/audioUtils], together with the properties the
    specification states about them.

    Conventions.  JavaScript numbers that carry sample values, radii and
    bar lengths are rationals ([Q]): every finite double is a rational,
    the arithmetic of the source is exact arithmetic here, and the one
    division that can have a zero divisor is written out ([js_div]).
    Bytes are [Byte.byte]; typed-array and file contents are lists of
    bytes.  [Math.sin] and [Math.cos] are implementation-approximated in
    ECMAScript and are parameters of the visualizer. *)

From Stdlib Require Import ZArith QArith Qminmax Qround List String Ascii Lia Lqa.
From Stdlib Require Import Strings.Byte.
From stdpp Require Import base list gmap.
Import ListNotations.

Local Open Scope Z_scope.

(** ** Little-endian byte fields *)

Module Bytes.

Definition byte_of_Z (z : Z) : byte :=
  match Byte.of_N (Z.to_N (z mod 256)) with
  | Some b => b
  | None => x00
  end.

Definition Z_of_byte (b : byte) : Z := Z.of_N (Byte.to_N b).

(** [DataView.setUint16(off, z, true)] and [setUint32(off, z, true)]. *)
Definition u16le (z : Z) : list byte :=
  [byte_of_Z z; byte_of_Z (z / 256)].

Definition u32le (z : Z) : list byte :=
  [byte_of_Z z; byte_of_Z (z / 256); byte_of_Z (z / 65536); byte_of_Z (z / 16777216)].

(** Reading a field back, as a standard decoder does. *)
Definition get_u16le (off : nat) (l : list byte) : option Z :=
  match skipn off l with
  | b0 :: b1 :: _ => Some (Z_of_byte b0 + 256 * Z_of_byte b1)
  | _ => None
  end.

Definition get_u32le (off : nat) (l : list byte) : option Z :=
  match skipn off l with
  | b0 :: b1 :: b2 :: b3 :: _ =>
      Some (Z_of_byte b0 + 256 * Z_of_byte b1
            + 65536 * Z_of_byte b2 + 16777216 * Z_of_byte b3)
  | _ => None
  end.

Definition get_tag (off : nat) (l : list byte) : list byte :=
  firstn 4 (skipn off l).

End Bytes.

(** ** The WAV encoder *)

Module Wav.
Import Bytes.

(** The browser's [AudioBuffer]: channel count, frames per channel
    (its [length]), sample rate and the per-channel sample arrays
    ([getChannelData ch] read at index [i]). *)
Record AudioBuffer := mkAudioBuffer {
  numberOfChannels : nat;
  frames : nat;
  sampleRate : Z;
  getChannelData : nat -> nat -> Q
}.

Definition Blob := list byte.

(** Modelled from the spec: the sample clamp of [audioBufferToWav]
    ([src/services/audioUtils] is not among the sources): "converts each
    float sample in [-1,1] to a 16-bit ... signed integer (clamped)". *)
Definition clamp (s : Q) : Q := Qmax (-1) (Qmin 1 s).

Section Encoder.

(** The scaling of a clamped sample to a 16-bit integer, which the
    specification leaves open. *)
Variable pcm16 : Q -> Z.

(** Modelled from the spec: one sample of [audioBufferToWav]: the
    clamped sample as a "16-bit little-endian signed integer". *)
Definition sample_bytes (s : Q) : list byte := u16le (pcm16 (clamp s)).

(** Modelled from the spec: the interleaving of [audioBufferToWav]:
    "interleaves per-channel samples": frame by frame, channel by
    channel. *)
Definition interleave (b : AudioBuffer) : list Q :=
  flat_map (fun i => map (fun ch => getChannelData b ch i)
                         (seq 0 (numberOfChannels b)))
           (seq 0 (frames b)).

(** Modelled from the spec: the header of [audioBufferToWav]: "a
    standard 44-byte RIFF/WAVE header (format tag 1 = PCM, given channel
    count, sample rate, 16-bit depth)". *)
Definition header (numChannels rate dataLen : Z) : list byte :=
  list_byte_of_string "RIFF" ++ u32le (36 + dataLen) ++
  list_byte_of_string "WAVE" ++
  list_byte_of_string "fmt " ++ u32le 16 ++
  u16le 1 ++ u16le numChannels ++
  u32le rate ++ u32le (rate * numChannels * 2) ++
  u16le (numChannels * 2) ++ u16le 16 ++
  list_byte_of_string "data" ++ u32le dataLen.

(** Modelled from the spec: [audioBufferToWav] of
    [src/services/audioUtils]: the header "followed by the interleaved
    sample bytes". *)
Definition audioBufferToWav (b : AudioBuffer) : Blob :=
  let data := flat_map sample_bytes (interleave b) in
  header (Z.of_nat (numberOfChannels b)) (sampleRate b)
         (Z.of_nat (List.length data))
  ++ data.

End Encoder.


(** The usual scaling, for running the encoder on examples: negative
    samples by 32768, the others by 32767, truncated toward zero. *)
Definition pcm16_usual (s : Q) : Z :=
  if Qlt_le_dec s 0 then Qceiling (s * 32768) else Qfloor (s * 32767).

End Wav.

(** ** The radar visualizer ([src/components/RadarVisualizer.tsx]) *)

Module Radar.
Import Bytes.
Local Open Scope Q_scope.

(** An [AnalyserNode], seen through what [draw] reads of it: its current
    byte frequency data, one entry per frequency bin. *)
Record AnalyserNode := mkAnalyser { freqData : list byte }.

Definition frequencyBinCount (a : AnalyserNode) : nat :=
  List.length (freqData a).

(** [new Uint8Array(n)]: [n] zero bytes. *)
Definition Uint8Array_new (n : nat) : list byte := repeat x00 n.

(** [analyser.getByteFrequencyData(array)] copies the data into the
    array; data beyond the array is dropped, array entries beyond the
    data are left as they are. *)
Definition getByteFrequencyData (a : AnalyserNode) (array : list byte) : list byte :=
  firstn (List.length array) (freqData a) ++ skipn (List.length (freqData a)) array.

Definition Q_of_byte (b : byte) : Q := inject_Z (Z_of_byte b).

(** JavaScript's [a / b] when the result is a finite number; [None]
    stands for the non-finite results (NaN, the infinities) of a zero
    divisor. *)
Definition js_div (a b : Q) : option Q :=
  if Qeq_bool b 0 then None else Some (a / b).

(** [Math.PI], the double nearest to pi, as the rational it is. *)
Definition Math_PI : Q := 884279719003555 # 281474976710656.

(** What [fillStyle] and [strokeStyle] are set to. *)
Inductive style :=
| Color (css : string)
| GradientBars          (* the linear gradient [gradient] *)
| GradientGlow.         (* the radial gradient [glow] *)

(** The calls and assignments [draw] makes on the 2D context. *)
Inductive cmd :=
| clearRect (x y w h : Q)
| createLinearGradient (x0 y0 x1 y1 : Q)
| createRadialGradient (x0 y0 r0 x1 y1 r1 : Q)
| addColorStop (g : style) (offset : Q) (css : string)
| set_fillStyle (s : style)
| set_strokeStyle (s : style)
| set_lineWidth (w : Q)
| set_lineCap (cap : string)
| beginPath
| arc (x y r a0 a1 : Q)
| moveTo (x y : Q)
| lineTo (x y : Q)
| fill
| stroke.

(** How a frame ends: it schedules the next one, or a context call
    rejects a non-finite argument ([createRadialGradient] throws a
    [TypeError]) and the frame stops there. *)
Inductive outcome := Scheduled | Thrown.

Record Canvas := mkCanvas { width : Z; height : Z }.

(** One spectrum bar, before it is turned into a line segment. *)
Record spectrumBar := mkBar {
  bar_value : Q;     (* [value]: the sampled byte magnitude *)
  bar_height : Q;    (* [barHeight] *)
  bar_angle : Q      (* [angle] *)
}.

Definition baseRadius : Q := 70.
Definition bars : nat := 64.

(** The bass loop: [for (let i = 0; i < bassCount; i++) sum += dataArray[i]],
    with [n] iterations left.  The index stays below [bassCount], which
    is at most the array's length, so every read is in range. *)
Fixpoint bass_loop (dataArray : list byte) (n i : nat) (sum : Z) : Z :=
  match n with
  | O => sum
  | S n' => bass_loop dataArray n' (S i) (sum + Z_of_byte (nth i dataArray x00))%Z
  end.

(** Lines 35-51: the snapshot and [average]. *)
Definition audio_data (analyser : option AnalyserNode) : list byte * option Q :=
  match analyser with
  | None => (Uint8Array_new 0, Some 0%Q)
  | Some a =>
      let bufferLength := frequencyBinCount a in
      let dataArray := getByteFrequencyData a (Uint8Array_new bufferLength) in
      let bassCount := Nat.div bufferLength 4 in
      let sum := bass_loop dataArray bassCount 0 0 in
      (dataArray, js_div (inject_Z sum) (inject_Z (Z.of_nat bassCount)))
  end.

(** Lines 85-92: [value], [barHeight] and [angle] of bar [i].  A read
    beyond the array is [undefined], which [|| 0] turns into 0. *)
Definition spectrum_bar (dataArray : list byte) (step i : nat) : spectrumBar :=
  let value := Q_of_byte (nth (i * step) dataArray x00) in
  let barHeight := Qmax 4 ((value / 255) * 100) in
  let angle := ((inject_Z (Z.of_nat i) / inject_Z (Z.of_nat bars)) * Math_PI * 2
                - Math_PI / 2)%Q in
  mkBar value barHeight angle.

Definition spectrum_bars (dataArray : list byte) (binCount : nat) : list spectrumBar :=
  let step := Nat.div binCount bars in
  map (spectrum_bar dataArray step) (seq 0 bars).

(** The bass proxy in the specification's words: "averages the lowest
    quarter of bins": the sum of the entries at indices
    [0 .. floor(n/4) - 1], divided by [floor(n/4)]. *)
Definition bass_mean (snapshot : list byte) : option Q :=
  let quarter := Nat.div (List.length snapshot) 4 in
  js_div (inject_Z (fold_right Z.add 0%Z (map Z_of_byte (firstn quarter snapshot))))
         (inject_Z (Z.of_nat quarter)).

Section Draw.

Variables Math_sin Math_cos : Q -> Q.

(** Lines 94-105: the segment of one bar. *)
Definition draw_bar (centerX centerY visualRadius : Q) (b : spectrumBar) : list cmd :=
  let angle := bar_angle b in
  let barHeight := bar_height b in
  let x1 := (centerX + Math_cos angle * (visualRadius + 10))%Q in
  let y1 := (centerY + Math_sin angle * (visualRadius + 10))%Q in
  let x2 := (centerX + Math_cos angle * (visualRadius + 10 + barHeight))%Q in
  let y2 := (centerY + Math_sin angle * (visualRadius + 10 + barHeight))%Q in
  [beginPath; moveTo x1 y1; lineTo x2 y2; stroke].

(** Lines 111-119: one idle particle. *)
Definition draw_particle (centerX centerY visualRadius time : Q) (i : nat) : list cmd :=
  let angle := (time + (inject_Z (Z.of_nat i) * (Math_PI * 2) / 8))%Q in
  let x := (centerX + Math_cos angle * visualRadius)%Q in
  let y := (centerY + Math_sin angle * visualRadius)%Q in
  [beginPath; arc x y 3 0 (Math_PI * 2); fill].

(** Line 56: [pulseIntensity], and how many times the clock has been
    read so far.  [now k] is the value of the frame's [k]-th call of
    [Date.now()]. *)
Definition pulse (isPlaying : bool) (average : option Q) (now : nat -> Z)
  : option Q * nat :=
  if isPlaying then (option_map (fun a => a / 3)%Q average, O)
  else (Some (Math_sin (inject_Z (now O) / 1500) * 5 + 5)%Q, 1%nat).

(** Line 57. *)
Definition visualRadius (isPlaying : bool) (analyser : option AnalyserNode)
    (now : nat -> Z) : option Q :=
  option_map (fun p => baseRadius + p)%Q
             (fst (pulse isPlaying (snd (audio_data analyser)) now)).

(** Lines 26-32: clearing the canvas and building the bar gradient. *)
Definition draw_setup (width height : Q) : list cmd :=
  let centerX := width / 2 in
  let centerY := height / 2 in
  [clearRect 0 0 width height;
   createLinearGradient (centerX - 100) (centerY - 100) (centerX + 100) (centerY + 100);
   addColorStop GradientBars 0 "#a3e635";
   addColorStop GradientBars (1 # 2) "#10b981";
   addColorStop GradientBars 1 "#15803d"].

(** Lines 59-74: the centre glow and the inner circle. *)
Definition draw_core (centerX centerY visualRadius : Q) : list cmd :=
  [createRadialGradient centerX centerY (baseRadius * (2 # 10))
                        centerX centerY (visualRadius * (15 # 10));
   addColorStop GradientGlow 0 "rgba(163, 230, 53, 0.3)";
   addColorStop GradientGlow 1 "rgba(16, 185, 129, 0)";
   set_fillStyle GradientGlow;
   beginPath;
   arc centerX centerY (visualRadius * (15 # 10)) 0 (Math_PI * 2);
   fill;
   beginPath;
   arc centerX centerY (visualRadius - 5) 0 (Math_PI * 2);
   set_strokeStyle (Color "rgba(255, 255, 255, 0.1)");
   set_lineWidth 2;
   stroke].

(** Lines 78-106: the spectrum bars. *)
Definition draw_spectrum (centerX centerY visualRadius : Q)
    (dataArray : list byte) (binCount : nat) : list cmd :=
  [set_strokeStyle GradientBars; set_lineWidth 4; set_lineCap "round"]
  ++ flat_map (draw_bar centerX centerY visualRadius)
              (spectrum_bars dataArray binCount).

(** Lines 109-119: the idle particles. *)
Definition draw_idle (centerX centerY visualRadius : Q) (clock : Z) : list cmd :=
  let time := inject_Z clock / 1000 in
  set_fillStyle (Color "rgba(16, 185, 129, 0.5)")
  :: flat_map (draw_particle centerX centerY visualRadius time) (seq 0 8).

(** One run of [draw]: the context calls and how the frame ends. *)
Definition draw (canvas : Canvas) (isPlaying : bool)
    (analyser : option AnalyserNode) (now : nat -> Z) : list cmd * outcome :=
  let width := inject_Z (width canvas) in
  let height := inject_Z (height canvas) in
  let centerX := width / 2 in
  let centerY := height / 2 in
  let '(dataArray, average) := audio_data analyser in
  let '(pulseIntensity, reads) := pulse isPlaying average now in
  match pulseIntensity with
  | None => (draw_setup width height, Thrown)
  | Some pulseIntensity =>
      let visualRadius := baseRadius + pulseIntensity in
      let rest :=
        match analyser with
        | Some a =>
            if isPlaying then
              draw_spectrum centerX centerY visualRadius dataArray (frequencyBinCount a)
            else draw_idle centerX centerY visualRadius (now reads)
        | None => draw_idle centerX centerY visualRadius (now reads)
        end in
      (draw_setup width height ++ draw_core centerX centerY visualRadius ++ rest,
       Scheduled)
  end.

(** The component's own state across frames: the handle of the pending
    animation frame ([requestRef]) and the browser's next handle. *)
Record VisState := mkVis { requestRef : option Z; nextHandle : Z }.

(** A frame as a step of the component: [draw], then
    [requestRef.current = requestAnimationFrame(draw)] when it gets
    there. *)
Definition frame (st : VisState) (canvas : Canvas) (isPlaying : bool)
    (analyser : option AnalyserNode) (now : nat -> Z) : VisState * list cmd :=
  match draw canvas isPlaying analyser now with
  | (calls, Scheduled) => (mkVis (Some (nextHandle st)) (nextHandle st + 1)%Z, calls)
  | (calls, Thrown) => (st, calls)
  end.

(** The bars of a frame, read back from its calls: one [lineTo] each. *)
Definition is_lineTo (c : cmd) : bool :=
  match c with lineTo _ _ => true | _ => false end.

Definition bars_drawn (calls : list cmd) : nat :=
  List.length (List.filter is_lineTo calls).

End Draw.

End Radar.

(** ** The application ([src/App.tsx], [src/services/geminiService.ts]) *)

Module App.
Import Bytes Wav.
Local Open Scope nat_scope.

(** [src/types]: the API's voices. *)
Inductive VoiceName := Kore | Puck | Charon | Fenrir | Zephyr.

Record VoicePersona := mkPersona {
  id : string;
  apiVoice : VoiceName;
  displayName : string;
  tags : string
}.

Definition VOICE_OPTIONS : list VoicePersona :=
  [ mkPersona "v_jason" Puck "Jason" "Deep // Authoritative";
    mkPersona "v_mike" Charon "Mike" "Deep // Narrative";
    mkPersona "v_henry" Fenrir "Henry" "Intense // Strong";
    mkPersona "v_jerry" Puck "Jerry" "Energetic // Clear";
    mkPersona "v_thomas" Charon "Thomas" "Low // Resonant";
    mkPersona "v_james" Fenrir "James" "Bold // Direct" ].

Definition MAX_CHARS : nat := 5000.

Definition DEFAULT_TEXT : string :=
  "Welcome to FastX Voice Generator. Experience the next generation of AI audio synthesis. Select a premium voice model, input your script, and generate studio-quality narration instantly.".

(** *** Strings

    A [string] is a sequence of code units below 256.  Among those,
    [String.prototype.trim] removes TAB, LF, VT, FF, CR, SPACE and
    NO-BREAK SPACE. *)
Definition is_whitespace (c : ascii) : bool :=
  match nat_of_ascii c with
  | 9 | 10 | 11 | 12 | 13 | 32 | 160 => true
  | _ => false
  end.

Fixpoint trimStart (l : list ascii) : list ascii :=
  match l with
  | [] => []
  | c :: r => if is_whitespace c then trimStart r else l
  end.

Definition trim (s : string) : string :=
  string_of_list_ascii
    (rev (trimStart (rev (trimStart (list_ascii_of_string s))))).

(** JavaScript truthiness of a string: non-empty. *)
Definition truthy (s : string) : bool :=
  match s with EmptyString => false | String _ _ => true end.

(** *** The browser objects the component holds *)

Inductive ctxState := suspended | running.

Record AudioContext := mkContext { ctx_sampleRate : Z; state : ctxState }.

Record AnalyserNode := mkAnalyserNode { fftSize : nat }.

(** What [source.onended] was set to call. *)
Inductive endedCallback :=
| clearPreview      (* [() => setPreviewVoiceId(null)] *)
| clearPlaying.     (* [() => setIsPlaying(false)] *)

(** A source node is created and started in one go by [playAudio];
    [stop()] or the end of its buffer ends the playback, and the
    [ended] event is delivered later. *)
Inductive nodeStatus := Playing | Stopped | Ended.

Record SourceNode := mkSource {
  buffer : AudioBuffer;
  onended : endedCallback;
  status : nodeStatus
}.

Inductive Error :=
| ApiKeyMissing           (* "API Key is missing." *)
| NoAudioData             (* "No audio data returned from Gemini." *)
| RequestFailed (reason : string)
| DecodeFailed.

(** What the user and the network can observe. *)
Inductive effect :=
| Alert (message : string)
| ConsoleError (e : Error)
| ApiRequest (text : string) (voice : VoiceName)
| CreateObjectURL (url : nat)
| RevokeObjectURL (url : nat).

(** The React state, the refs and the part of the browser they point
    into: the source nodes created so far (a node is named by its
    index), the object URL store and the trace of effects. *)
Record State := mkState {
  text : string;
  selectedVoiceId : string;
  isLoading : bool;
  isPlaying : bool;
  previewVoiceId : option string;
  audioBuffer : option AudioBuffer;
  downloadUrl : option nat;
  audioContextRef : option AudioContext;
  sourceNodeRef : option nat;
  analyserRef : option AnalyserNode;
  nodes : list SourceNode;
  blobs : gmap nat Blob;
  nextUrl : nat;
  log : list effect
}.

Definition setText v s := mkState v (selectedVoiceId s) (isLoading s) (isPlaying s) (previewVoiceId s) (audioBuffer s) (downloadUrl s) (audioContextRef s) (sourceNodeRef s) (analyserRef s) (nodes s) (blobs s) (nextUrl s) (log s).
Definition setSelectedVoiceId v s := mkState (text s) v (isLoading s) (isPlaying s) (previewVoiceId s) (audioBuffer s) (downloadUrl s) (audioContextRef s) (sourceNodeRef s) (analyserRef s) (nodes s) (blobs s) (nextUrl s) (log s).
Definition setIsLoading v s := mkState (text s) (selectedVoiceId s) v (isPlaying s) (previewVoiceId s) (audioBuffer s) (downloadUrl s) (audioContextRef s) (sourceNodeRef s) (analyserRef s) (nodes s) (blobs s) (nextUrl s) (log s).
Definition setIsPlaying v s := mkState (text s) (selectedVoiceId s) (isLoading s) v (previewVoiceId s) (audioBuffer s) (downloadUrl s) (audioContextRef s) (sourceNodeRef s) (analyserRef s) (nodes s) (blobs s) (nextUrl s) (log s).
Definition setPreviewVoiceId v s := mkState (text s) (selectedVoiceId s) (isLoading s) (isPlaying s) v (audioBuffer s) (downloadUrl s) (audioContextRef s) (sourceNodeRef s) (analyserRef s) (nodes s) (blobs s) (nextUrl s) (log s).
Definition setAudioBuffer v s := mkState (text s) (selectedVoiceId s) (isLoading s) (isPlaying s) (previewVoiceId s) v (downloadUrl s) (audioContextRef s) (sourceNodeRef s) (analyserRef s) (nodes s) (blobs s) (nextUrl s) (log s).
Definition setDownloadUrl v s := mkState (text s) (selectedVoiceId s) (isLoading s) (isPlaying s) (previewVoiceId s) (audioBuffer s) v (audioContextRef s) (sourceNodeRef s) (analyserRef s) (nodes s) (blobs s) (nextUrl s) (log s).
Definition setAudioContextRef v s := mkState (text s) (selectedVoiceId s) (isLoading s) (isPlaying s) (previewVoiceId s) (audioBuffer s) (downloadUrl s) v (sourceNodeRef s) (analyserRef s) (nodes s) (blobs s) (nextUrl s) (log s).
Definition setSourceNodeRef v s := mkState (text s) (selectedVoiceId s) (isLoading s) (isPlaying s) (previewVoiceId s) (audioBuffer s) (downloadUrl s) (audioContextRef s) v (analyserRef s) (nodes s) (blobs s) (nextUrl s) (log s).
Definition setAnalyserRef v s := mkState (text s) (selectedVoiceId s) (isLoading s) (isPlaying s) (previewVoiceId s) (audioBuffer s) (downloadUrl s) (audioContextRef s) (sourceNodeRef s) v (nodes s) (blobs s) (nextUrl s) (log s).
Definition setNodes v s := mkState (text s) (selectedVoiceId s) (isLoading s) (isPlaying s) (previewVoiceId s) (audioBuffer s) (downloadUrl s) (audioContextRef s) (sourceNodeRef s) (analyserRef s) v (blobs s) (nextUrl s) (log s).
Definition setBlobs v n s := mkState (text s) (selectedVoiceId s) (isLoading s) (isPlaying s) (previewVoiceId s) (audioBuffer s) (downloadUrl s) (audioContextRef s) (sourceNodeRef s) (analyserRef s) (nodes s) v n (log s).
Definition emit (e : effect) s := mkState (text s) (selectedVoiceId s) (isLoading s) (isPlaying s) (previewVoiceId s) (audioBuffer s) (downloadUrl s) (audioContextRef s) (sourceNodeRef s) (analyserRef s) (nodes s) (blobs s) (nextUrl s) (log s ++ [e]).

(** The state of the first render, before the mount effect has run. *)
Definition initial : State :=
  mkState DEFAULT_TEXT "v_mike" false false None None None None None None [] ∅ 0 [].

(** The mount effect (lines 43-48). *)
Definition mount (s : State) : State :=
  setAnalyserRef (Some (mkAnalyserNode 256))
    (setAudioContextRef (Some (mkContext 24000 suspended)) s).

(** *** The browser calls *)

Definition alert (message : string) : State -> State := emit (Alert message).

Definition createObjectURL (blob : Blob) (s : State) : nat * State :=
  let url := nextUrl s in
  (url, emit (CreateObjectURL url) (setBlobs (<[url := blob]> (blobs s)) (S url) s)).

Definition revokeObjectURL (url : nat) (s : State) : State :=
  emit (RevokeObjectURL url) (setBlobs (delete url (blobs s)) (nextUrl s) s).

(** [node.stop()]: a playing node stops; on a node that has stopped or
    ended there is nothing left to stop. *)
Definition stop_node (n : SourceNode) : SourceNode :=
  match status n with
  | Playing => mkSource (buffer n) (onended n) Stopped
  | _ => n
  end.

Definition stop (i : nat) (s : State) : State :=
  match nodes s !! i with
  | Some n => setNodes (<[i := stop_node n]> (nodes s)) s
  | None => s
  end.

(** *** The handlers *)

(** Lines 55-60. *)
Definition ensureAudioContext (s : State) : State :=
  match audioContextRef s with
  | None => s
  | Some c =>
      match state c with
      | suspended => setAudioContextRef (Some (mkContext (ctx_sampleRate c) running)) s
      | running => s
      end
  end.

(** Lines 137-144. *)
Definition stopAudio (s : State) : State :=
  let s :=
    match sourceNodeRef s with
    | Some i => setSourceNodeRef None (stop i s)
    | None => s
    end in
  setPreviewVoiceId None (setIsPlaying false s).

(** Lines 116-135. *)
Definition playAudio (b : AudioBuffer) (onEnded : endedCallback) (s : State) : State :=
  match audioContextRef s, analyserRef s with
  | Some _, Some _ =>
      let s :=
        match sourceNodeRef s with
        | Some i => stop i s
        | None => s
        end in
      let source := List.length (nodes s) in
      setSourceNodeRef (Some source)
        (setNodes (nodes s ++ [mkSource b onEnded Playing]) s)
  | _, _ => s
  end.

(** Lines 146-151. *)
Definition handleClear (s : State) : State :=
  stopAudio (setDownloadUrl None (setAudioBuffer None (setText "" s))).

(** The [ended] event of node [i]: its playback is over (it was stopped,
    or its buffer ran out) and its callback runs. *)
Definition ended (i : nat) (s : State) : State :=
  match nodes s !! i with
  | Some n =>
      match status n with
      | Ended => s
      | _ =>
          let s := setNodes (<[i := mkSource (buffer n) (onended n) Ended]> (nodes s)) s in
          match onended n with
          | clearPreview => setPreviewVoiceId None s
          | clearPlaying => setIsPlaying false s
          end
      end
  | None => s
  end.

(** *** The speech service ([src/services/geminiService.ts]) *)

(** What the network returns for one [generateContent] request: the
    request fails, or a response arrives whose first part may carry
    base64 audio ([response.candidates?.[0]?...?.inlineData?.data]). *)
Inductive ApiReply :=
| Rejected (reason : string)
| Responded (data : option string).

Section Service.

(** [process.env.API_KEY || ''], fixed when the bundle is built. *)
Variable API_KEY : string.

(** The sample scaling of the WAV encoder (see [Wav.pcm16_usual]). *)
Variable pcm16 : Q -> Z.

(** [decodeBase64] of [src/services/audioUtils], which is not among the
    sources; [None] when it throws. *)
Variable decodeBase64 : string -> option (list byte).

(** How [decodeAudioData] of [src/services/audioUtils] turns raw bytes
    into frames: for a channel count, the number of frames and the
    samples by channel and index. *)
Variable decodeSamples : list byte -> nat -> nat * (nat -> nat -> Q).

(** Modelled from the spec: [decodeAudioData] of
    [src/services/audioUtils], which is not among the sources: the raw
    audio is decoded into a buffer of the sample rate and channel count
    it is called with ("mono, 24 kHz" at its one call site). *)
Definition decodeAudioData (data : list byte) (ctx : AudioContext)
    (sampleRate : Z) (numChannels : nat) : AudioBuffer :=
  let '(frameCount, channelData) := decodeSamples data numChannels in
  mkAudioBuffer numChannels frameCount sampleRate channelData.

(** Lines 7-47.  The result is the resolved buffer or the one error the
    promise is rejected with; errors raised inside the [try] are logged
    by its [catch] and thrown again. *)
Definition generateSpeech (text : string) (voice : VoiceName) (ctx : AudioContext)
    (reply : ApiReply) (s : State) : State * (Error + AudioBuffer) :=
  if negb (truthy API_KEY) then (s, inl ApiKeyMissing)
  else
    let s := emit (ApiRequest text voice) s in
    let rethrow (e : Error) := (emit (ConsoleError e) s, inl e) in
    match reply with
    | Rejected reason => rethrow (RequestFailed reason)
    | Responded None => rethrow NoAudioData
    | Responded (Some base64Audio) =>
        if negb (truthy base64Audio) then rethrow NoAudioData
        else
          match decodeBase64 base64Audio with
          | None => rethrow DecodeFailed
          | Some rawBytes => (s, inr (decodeAudioData rawBytes ctx 24000 1))
          end
    end.

(** The effects of a service call that throws [e]: the request and
    the [catch]'s console line, or nothing when the key is missing. *)
Definition service_trace (text : string) (voice : VoiceName) (e : Error) : list effect :=
  if truthy API_KEY then [ApiRequest text voice; ConsoleError e] else [].

(** The effect of [if (downloadUrl) URL.revokeObjectURL(downloadUrl)]. *)
Definition revoked (url : option nat) : list effect :=
  match url with Some u => [RevokeObjectURL u] | None => [] end.

(** *** The asynchronous handlers

    A handler runs in three pieces: up to its first [await]
    ([_enter]), from there to the wait for the service ([_prepare]), and
    after the reply ([_finish]).  What it reads from its closure (the
    values of the render it was created in) is captured on entry, and so
    is the audio context, which the ref holds from the mount on. *)

Record GenerateClosure := mkGenerate {
  g_text : string;
  g_option : VoicePersona;
  g_downloadUrl : option nat;
  g_ctx : AudioContext
}.

(** Lines 81-91. *)
Definition handleGenerate_enter (s : State) : State * option GenerateClosure :=
  match audioContextRef s with
  | None => (s, None)
  | Some ctx =>
      if negb (truthy (trim (text s))) then (s, None)
      else if MAX_CHARS <? String.length (text s) then
        (alert "Character limit exceeded. Please reduce to 5000 characters." s, None)
      else
        match List.find (fun v => String.eqb (id v) (selectedVoiceId s)) VOICE_OPTIONS with
        | None => (s, None)
        | Some selectedOption =>
            (ensureAudioContext s,
             Some (mkGenerate (text s) selectedOption (downloadUrl s) ctx))
        end
  end.

(** Lines 92-96. *)
Definition handleGenerate_prepare (c : GenerateClosure) (s : State) : State :=
  let s := setIsLoading true s in
  let s := setAudioBuffer None s in
  let s := match g_downloadUrl c with
           | Some url => revokeObjectURL url s
           | None => s
           end in
  let s := setDownloadUrl None s in
  stopAudio s.

(** Lines 98-113. *)
Definition handleGenerate_finish (c : GenerateClosure) (reply : ApiReply)
    (s : State) : State :=
  let '(s, r) := generateSpeech (g_text c) (apiVoice (g_option c)) (g_ctx c) reply s in
  let s :=
    match r with
    | inr buffer =>
        let s := setAudioBuffer (Some buffer) s in
        let wavBlob := audioBufferToWav pcm16 buffer in
        let '(url, s) := createObjectURL wavBlob s in
        let s := setDownloadUrl (Some url) s in
        let s := playAudio buffer clearPlaying s in
        setIsPlaying true s
    | inl error =>
        alert "Generation failed. Please try again." (emit (ConsoleError error) s)
    end in
  setIsLoading false s.

(** [handleGenerate], run without another handler in between, on the
    network's [reply]. *)
Definition handleGenerate (reply : ApiReply) (s : State) : State :=
  match handleGenerate_enter s with
  | (s, None) => s
  | (s, Some c) => handleGenerate_finish c reply (handleGenerate_prepare c s)
  end.

Record PreviewClosure := mkPreview { p_voice : VoicePersona; p_ctx : AudioContext }.

(** Lines 63-66. *)
Definition handlePreview_enter (voice : VoicePersona) (s : State)
  : State * option PreviewClosure :=
  match audioContextRef s with
  | None => (s, None)
  | Some ctx =>
      match previewVoiceId s with
      | Some (String _ _) => (s, None)
      | _ => (ensureAudioContext s, Some (mkPreview voice ctx))
      end
  end.

(** Lines 67-68. *)
Definition handlePreview_prepare (c : PreviewClosure) (s : State) : State :=
  stopAudio (setPreviewVoiceId (Some (id (p_voice c))) s).

(** Lines 70-78. *)
Definition handlePreview_finish (c : PreviewClosure) (reply : ApiReply)
    (s : State) : State :=
  let previewText := ("Hello, I am " ++ displayName (p_voice c) ++ ".")%string in
  let '(s, r) := generateSpeech previewText (apiVoice (p_voice c)) (p_ctx c) reply s in
  match r with
  | inr buffer => playAudio buffer clearPreview s
  | inl err => setPreviewVoiceId None (emit (ConsoleError err) s)
  end.

Definition handlePreview (voice : VoicePersona) (reply : ApiReply) (s : State) : State :=
  match handlePreview_enter voice s with
  | (s, None) => s
  | (s, Some c) => handlePreview_finish c reply (handlePreview_prepare c s)
  end.

(** *** The application as a transition system

    One step is one uninterrupted piece of the component's code, or the
    delivery of an [ended] event; the pieces of different handler runs
    interleave freely. *)
Inductive step : State -> State -> Prop :=
| step_mount s : step s (mount s)
| step_setText s t : step s (setText t s)
| step_selectVoice s v : step s (setSelectedVoiceId v s)
| step_clear s : step s (handleClear s)
| step_ended s i : step s (ended i s)
| step_generate_enter s : step s (fst (handleGenerate_enter s))
| step_generate_prepare s c : step s (handleGenerate_prepare c s)
| step_generate_finish s c reply : step s (handleGenerate_finish c reply s)
| step_preview_enter s voice : step s (fst (handlePreview_enter voice s))
| step_preview_prepare s c : step s (handlePreview_prepare c s)
| step_preview_finish s c reply : step s (handlePreview_finish c reply s).

Inductive reachable : State -> Prop :=
| reachable_initial : reachable initial
| reachable_step s s' : reachable s -> step s s' -> reachable s'.

(** The alerts among the effects. *)
Definition is_alert (e : effect) : bool :=
  match e with Alert _ => true | _ => false end.

(** The source nodes that are playing. *)
Definition playing (s : State) : list nat :=
  List.filter (fun i => match nodes s !! i with
                        | Some n => match status n with Playing => true | _ => false end
                        | None => false
                        end)
              (seq 0 (List.length (nodes s))).

End Service.

(** A source node that plays is the one [sourceNodeRef] holds. *)
Definition one_source (s : State) : Prop :=
  forall i n, nodes s !! i = Some n -> status n = Playing -> sourceNodeRef s = Some i.

(** No source node plays. *)
Definition quiet (s : State) : Prop :=
  forall i n, nodes s !! i = Some n -> status n <> Playing.


End App.

(** ** Inputs for the examples *)

Module Samples.
Import Bytes Wav Radar.

(** A two-frame stereo buffer. *)
Definition stereo2 : AudioBuffer :=
  mkAudioBuffer 2 2 48000
    (fun ch i => match ch, i with
                 | O, O => 1%Q | O, _ => (-1 # 2)%Q
                 | _, O => 3%Q | _, _ => 0%Q
                 end).

(** Stand-ins for [Math.sin] and [Math.cos]: the Taylor polynomials of
    degree three and two, cut off at -1 and 1. *)
Definition sin_approx (x : Q) : Q := Qmax (-1) (Qmin 1 (x - x * x * x / 6))%Q.
Definition cos_approx (x : Q) : Q := Qmax (-1) (Qmin 1 (1 - x * x / 2))%Q.

(** The 400 by 400 canvas of the component. *)
Definition canvas400 : Canvas := mkCanvas 400 400.

(** The analyser of the application ([fftSize = 256], 128 bins) during
    silence, and with every bin at 30 except a first bin at 255. *)
Definition silence : AnalyserNode := mkAnalyser (repeat x00 128).
Definition hum : AnalyserNode := mkAnalyser (xff :: repeat x1e 127).

(** A clock that stands still at one millisecond reading. *)
Definition clock_at (t : Z) : nat -> Z := fun _ => t.

(** Stand-ins for the decoders of [src/services/audioUtils]: the text
    taken byte for byte, and 16-bit little-endian samples over 32768. *)
Definition decode_bytes (s : string) : option (list byte) :=
  Some (list_byte_of_string s).

Definition decode_pcm16 (data : list byte) (numChannels : nat)
  : nat * (nat -> nat -> Q) :=
  (Nat.div (Nat.div (List.length data) 2) numChannels,
   fun ch i =>
     let k := (2 * (i * numChannels + ch))%nat in
     let u := (Z_of_byte (nth k data x00) + 256 * Z_of_byte (nth (S k) data x00))%Z in
     (inject_Z (if (u <? 32768)%Z then u else u - 65536) / 32768)%Q).

(** A script of 5001 characters, and one of 5001 blanks. *)
Definition long_text : string :=
  string_of_list_ascii (repeat "a"%char (S App.MAX_CHARS)).
Definition long_blank : string :=
  string_of_list_ascii (repeat " "%char (S App.MAX_CHARS)).

(** The application after mounting, and after a generation that
    succeeded on four bytes of audio. *)
Definition mounted : App.State := App.mount App.initial.

Definition generated : App.State :=
  App.handleGenerate "key" pcm16_usual decode_bytes decode_pcm16
    (App.Responded (Some "abcd"%string)) mounted.

Definition mike : App.VoicePersona :=
  App.mkPersona "v_mike" App.Charon "Mike" "Deep // Narrative".

End Samples.

(** ** What the render derives from the state ([src/App.tsx], lines 153-351) *)

Module View.
Import App.
Local Open Scope nat_scope.

(** Line 196: the [isPlaying] prop handed to the visualizer,
    [isPlaying || previewVoiceId !== null]. *)
Definition radar_isPlaying (s : State) : bool :=
  isPlaying s || match previewVoiceId s with Some _ => true | None => false end.

(** Line 292: the [disabled] attribute of the generate button,
    [(isLoading && !isPlaying) || text.length > MAX_CHARS]. *)
Definition generate_disabled (s : State) : bool :=
  (isLoading s && negb (isPlaying s)) || (MAX_CHARS <? String.length (text s)).

(** Lines 277 and 281: the counter turns red on
    [text.length > MAX_CHARS]. *)
Definition over_limit (s : State) : bool :=
  MAX_CHARS <? String.length (text s).

(** Line 278: the width of the progress bar in percent,
    [Math.min((text.length / MAX_CHARS) * 100, 100)]. *)
Definition progress_width (s : State) : Q :=
  Qmin (inject_Z (Z.of_nat (String.length (text s)))
        / inject_Z (Z.of_nat MAX_CHARS) * 100)%Q 100%Q.

(** Line 326: the download link is rendered when [downloadUrl] is
    set. *)
Definition download_shown (s : State) : bool :=
  match downloadUrl s with Some _ => true | None => false end.

(** Lines 231 and 237: the preview button of a voice shows the spinner
    on [previewVoiceId === voice.id]. *)
Definition preview_spinner (voice : VoicePersona) (s : State) : bool :=
  match previewVoiceId s with
  | Some v => String.eqb v (id voice)
  | None => false
  end.

(** The effects of a trace that are requests to the service. *)
Definition is_request (e : effect) : bool :=
  match e with ApiRequest _ _ => true | _ => false end.

Definition is_revoke (e : effect) : bool :=
  match e with RevokeObjectURL _ => true | _ => false end.

(** The download link, if shown, names an object URL that has not
    been revoked, and the next object URL is a new one. *)
Definition links_ok (s : State) : Prop :=
  (forall url, downloadUrl s = Some url -> is_Some (blobs s !! url)) /\
  (forall url, is_Some (blobs s !! url) -> url < nextUrl s).

(** The order of a source node's life: playing, then stopped, then
    ended. *)
Definition status_le (a b : nodeStatus) : bool :=
  match a, b with
  | Playing, _ => true
  | Stopped, Playing => false
  | Stopped, _ => true
  | Ended, Ended => true
  | Ended, _ => false
  end.

(** Every node of [ns] is still there in [ns'], at its index, with its
    buffer and callback, and no earlier in its life. *)
Definition grows (ns ns' : list SourceNode) : Prop :=
  forall i n, ns !! i = Some n ->
    exists n', ns' !! i = Some n' /\
               buffer n' = buffer n /\ onended n' = onended n /\
               status_le (status n) (status n') = true.

End View.

(** ** The 2D context the frames draw on

    What outlives a frame in the browser: the context's drawing state
    (styles, line width, line cap, current path) and the canvas bitmap.
    A frame's calls are run against them.  The bitmap is kept as the
    paints made, each with the attributes it was made with, not as
    pixels.  The attributes no code of the program assigns (transform,
    alpha, shadows, dashes, clip) keep the values the context is created
    with and are left out. *)

Module Canvas2D.
Import Radar.
Local Open Scope Q_scope.

(** The pieces of a path. *)
Inductive segment :=
| MoveTo (x y : Q)
| LineTo (x y : Q)
| ArcTo (x y r a0 a1 : Q).

(** A [CanvasGradient] object: its geometry and the colour stops added
    to it so far. *)
Inductive gradientShape :=
| LinearShape (x0 y0 x1 y1 : Q)
| RadialShape (x0 y0 r0 x1 y1 r1 : Q).

Record CanvasGradient := mkGradient {
  shape : gradientShape;
  stops : list (Q * string)
}.

(** What a fill or a stroke paints with. *)
Inductive paintStyle :=
| Solid (css : string)
| Gradient (g : CanvasGradient).

(** What a call leaves on the bitmap: a filled path, a stroked path with
    the style, line width and line cap in force, or a cleared
    rectangle. *)
Inductive paint :=
| Filled (path : list segment) (style : paintStyle)
| Stroked (path : list segment) (style : paintStyle) (width : Q) (cap : string)
| Cleared (x y w h : Q).

(** The context between two frames, with the bitmap as the paints made
    since the canvas was last cleared whole.  A gradient a style holds
    is held by value: once its frame is over no variable reaches it, so
    it no longer changes. *)
Record Context := mkContext2D {
  fillStyle : paintStyle;
  strokeStyle : paintStyle;
  lineWidth : Q;
  lineCap : string;
  path : list segment;
  bitmap : list paint
}.

(** A context as [getContext('2d')] first returns it. *)
Definition fresh_context : Context :=
  mkContext2D (Solid "#000000") (Solid "#000000") 1 "butt" [] [].

(** A context as other drawing could have left it. *)
Definition stale_context : Context :=
  mkContext2D (Solid "red") (Solid "blue") 7 "round" [LineTo 1 1]
              [Filled [ArcTo 0 0 9 0 1] (Solid "red")].

(** What a style attribute holds while a frame runs: a value no variable
    of the frame reaches, or the very object that [draw]'s variable
    [gradient], or [glow], refers to (so that a stop added later would
    show). *)
Inductive styleRef :=
| Held (s : paintStyle)
| LocalGradient
| LocalGlow.

(** The state of a running frame: the context, [draw]'s two gradient
    variables, and whether a call has thrown. *)
Record RunState := mkRun {
  r_fill : styleRef;
  r_stroke : styleRef;
  r_width : Q;
  r_cap : string;
  r_path : list segment;
  r_bitmap : list paint;
  v_gradient : option CanvasGradient;
  v_glow : option CanvasGradient;
  thrown : bool
}.

Definition start (c : Context) : RunState :=
  mkRun (Held (fillStyle c)) (Held (strokeStyle c)) (lineWidth c) (lineCap c)
        (path c) (bitmap c) None None false.

(** The value a style attribute stands for. *)
Definition resolve (s : RunState) (r : styleRef) : paintStyle :=
  match r with
  | Held p => p
  | LocalGradient =>
      match v_gradient s with Some g => Gradient g | None => Solid "#000000" end
  | LocalGlow =>
      match v_glow s with Some g => Gradient g | None => Solid "#000000" end
  end.

(** When the frame is over its variables are gone and the styles keep
    what they referred to. *)
Definition finish (s : RunState) : Context :=
  mkContext2D (resolve s (r_fill s)) (resolve s (r_stroke s)) (r_width s) (r_cap s)
              (r_path s) (r_bitmap s).

Definition nonneg (q : Q) : bool := Qle_bool 0 q.
Definition positive (q : Q) : bool := negb (Qle_bool q 0).
Definition unit_offset (q : Q) : bool := Qle_bool 0 q && Qle_bool q 1.

Definition valid_cap (cap : string) : bool :=
  String.eqb cap "butt" || String.eqb cap "round" || String.eqb cap "square".

(** A cleared rectangle that covers the whole canvas. *)
Definition covers (canvas : Canvas) (x y w h : Q) : bool :=
  Qle_bool x 0 && Qle_bool y 0
  && Qle_bool (inject_Z (width canvas)) (x + w)
  && Qle_bool (inject_Z (height canvas)) (y + h).

(** A style that referred to a variable's object keeps that object when
    the variable is bound anew. *)
Definition detach (s : RunState) (r : styleRef) (v : styleRef) : styleRef :=
  match r, v with
  | LocalGradient, LocalGradient => Held (resolve s r)
  | LocalGlow, LocalGlow => Held (resolve s r)
  | _, _ => r
  end.

Definition throw (s : RunState) : RunState :=
  mkRun (r_fill s) (r_stroke s) (r_width s) (r_cap s) (r_path s) (r_bitmap s)
        (v_gradient s) (v_glow s) true.

Definition add_stop (g : CanvasGradient) (offset : Q) (css : string) : CanvasGradient :=
  mkGradient (shape g) (stops g ++ [(offset, css)]).

(** An assignment to [fillStyle] or [strokeStyle]: a colour, or one of
    the frame's gradients; assigning an unbound variable ([undefined])
    is ignored. *)
Definition assigned (s : RunState) (old : styleRef) (v : style) : styleRef :=
  match v with
  | Color css => Held (Solid css)
  | GradientBars => match v_gradient s with Some _ => LocalGradient | None => old end
  | GradientGlow => match v_glow s with Some _ => LocalGlow | None => old end
  end.

(** One call on the context.  Radii below zero and stop offsets outside
    [0,1] throw; a line width that is not positive and a line cap that
    is not a cap are ignored. *)
Definition step (canvas : Canvas) (s : RunState) (k : cmd) : RunState :=
  match k with
  | clearRect x y w h =>
      mkRun (r_fill s) (r_stroke s) (r_width s) (r_cap s) (r_path s)
            (if covers canvas x y w h then [] else r_bitmap s ++ [Cleared x y w h])
            (v_gradient s) (v_glow s) false
  | createLinearGradient x0 y0 x1 y1 =>
      mkRun (detach s (r_fill s) LocalGradient) (detach s (r_stroke s) LocalGradient)
            (r_width s) (r_cap s) (r_path s) (r_bitmap s)
            (Some (mkGradient (LinearShape x0 y0 x1 y1) [])) (v_glow s) false
  | createRadialGradient x0 y0 r0 x1 y1 r1 =>
      if nonneg r0 && nonneg r1 then
        mkRun (detach s (r_fill s) LocalGlow) (detach s (r_stroke s) LocalGlow)
              (r_width s) (r_cap s) (r_path s) (r_bitmap s)
              (v_gradient s) (Some (mkGradient (RadialShape x0 y0 r0 x1 y1 r1) [])) false
      else throw s
  | addColorStop g offset css =>
      if unit_offset offset then
        match g, v_gradient s, v_glow s with
        | GradientBars, Some o, _ =>
            mkRun (r_fill s) (r_stroke s) (r_width s) (r_cap s) (r_path s) (r_bitmap s)
                  (Some (add_stop o offset css)) (v_glow s) false
        | GradientGlow, _, Some o =>
            mkRun (r_fill s) (r_stroke s) (r_width s) (r_cap s) (r_path s) (r_bitmap s)
                  (v_gradient s) (Some (add_stop o offset css)) false
        | _, _, _ => throw s
        end
      else throw s
  | set_fillStyle v =>
      mkRun (assigned s (r_fill s) v) (r_stroke s) (r_width s) (r_cap s) (r_path s)
            (r_bitmap s) (v_gradient s) (v_glow s) false
  | set_strokeStyle v =>
      mkRun (r_fill s) (assigned s (r_stroke s) v) (r_width s) (r_cap s) (r_path s)
            (r_bitmap s) (v_gradient s) (v_glow s) false
  | set_lineWidth w =>
      mkRun (r_fill s) (r_stroke s) (if positive w then w else r_width s) (r_cap s)
            (r_path s) (r_bitmap s) (v_gradient s) (v_glow s) false
  | set_lineCap cap =>
      mkRun (r_fill s) (r_stroke s) (r_width s) (if valid_cap cap then cap else r_cap s)
            (r_path s) (r_bitmap s) (v_gradient s) (v_glow s) false
  | beginPath =>
      mkRun (r_fill s) (r_stroke s) (r_width s) (r_cap s) [] (r_bitmap s)
            (v_gradient s) (v_glow s) false
  | arc x y r a0 a1 =>
      if nonneg r then
        mkRun (r_fill s) (r_stroke s) (r_width s) (r_cap s)
              (r_path s ++ [ArcTo x y r a0 a1]) (r_bitmap s)
              (v_gradient s) (v_glow s) false
      else throw s
  | moveTo x y =>
      mkRun (r_fill s) (r_stroke s) (r_width s) (r_cap s) (r_path s ++ [MoveTo x y])
            (r_bitmap s) (v_gradient s) (v_glow s) false
  | lineTo x y =>
      mkRun (r_fill s) (r_stroke s) (r_width s) (r_cap s) (r_path s ++ [LineTo x y])
            (r_bitmap s) (v_gradient s) (v_glow s) false
  | fill =>
      mkRun (r_fill s) (r_stroke s) (r_width s) (r_cap s) (r_path s)
            (r_bitmap s ++ [Filled (r_path s) (resolve s (r_fill s))])
            (v_gradient s) (v_glow s) false
  | stroke =>
      mkRun (r_fill s) (r_stroke s) (r_width s) (r_cap s) (r_path s)
            (r_bitmap s ++ [Stroked (r_path s) (resolve s (r_stroke s))
                                    (r_width s) (r_cap s)])
            (v_gradient s) (v_glow s) false
  end.

(** The calls of a frame in order; what follows a call that throws does
    not run. *)
Definition exec (canvas : Canvas) (calls : list cmd) (s : RunState) : RunState :=
  fold_left (fun s k => if thrown s then s else step canvas s k) calls s.

(** A frame's calls run on the context the earlier frames left. *)
Definition run (canvas : Canvas) (c : Context) (calls : list cmd) : RunState :=
  exec canvas calls (start c).

Definition render (canvas : Canvas) (c : Context) (calls : list cmd) : Context :=
  finish (run canvas c calls).

(** The two paints every completed frame starts with: the glow, filled
    with its radial gradient, and the inner circle, stroked two pixels
    wide with the line cap in force. *)
Definition glow_gradient (centerX centerY visualRadius : Q) : CanvasGradient :=
  mkGradient
    (RadialShape centerX centerY (baseRadius * (2 # 10))
                 centerX centerY (visualRadius * (15 # 10)))
    [(0, "rgba(163, 230, 53, 0.3)"%string); (1, "rgba(16, 185, 129, 0)"%string)].

Definition bars_gradient (centerX centerY : Q) : CanvasGradient :=
  mkGradient
    (LinearShape (centerX - 100) (centerY - 100) (centerX + 100) (centerY + 100))
    [(0, "#a3e635"%string); (1 # 2, "#10b981"%string); (1, "#15803d"%string)].

Definition core_paints (centerX centerY visualRadius : Q) (cap : string) : list paint :=
  [Filled [ArcTo centerX centerY (visualRadius * (15 # 10)) 0 (Math_PI * 2)]
          (Gradient (glow_gradient centerX centerY visualRadius));
   Stroked [ArcTo centerX centerY (visualRadius - 5) 0 (Math_PI * 2)]
           (Solid "rgba(255, 255, 255, 0.1)") 2 cap].

Section Paint.

Variables Math_sin Math_cos : Q -> Q.

(** The paint of one spectrum bar and of one idle particle. *)
Definition bar_paint (centerX centerY visualRadius : Q) (b : spectrumBar) : paint :=
  let angle := bar_angle b in
  Stroked [MoveTo (centerX + Math_cos angle * (visualRadius + 10))
                  (centerY + Math_sin angle * (visualRadius + 10));
           LineTo (centerX + Math_cos angle * (visualRadius + 10 + bar_height b))
                  (centerY + Math_sin angle * (visualRadius + 10 + bar_height b))]
          (Gradient (bars_gradient centerX centerY)) 4 "round".

Definition particle_paint (centerX centerY visualRadius time : Q) (i : nat) : paint :=
  let angle := time + (inject_Z (Z.of_nat i) * (Math_PI * 2) / 8) in
  Filled [ArcTo (centerX + Math_cos angle * visualRadius)
                (centerY + Math_sin angle * visualRadius) 3 0 (Math_PI * 2)]
         (Solid "rgba(16, 185, 129, 0.5)").

(** A frame as a step of the component and of its canvas: [draw]'s calls
    run on the context, and the next frame is requested unless a call
    has thrown. *)
Definition paint_frame (st : VisState) (c : Context) (canvas : Canvas)
    (isPlaying : bool) (analyser : option AnalyserNode) (now : nat -> Z)
  : VisState * Context :=
  let '(st', calls) := frame Math_sin Math_cos st canvas isPlaying analyser now in
  let r := run canvas c calls in
  (if thrown r then st else st', finish r).

End Paint.

End Canvas2D.

(** * Properties *)

(** ** Byte fields *)

Module BytesFacts.
Import Bytes.
Local Open Scope Z_scope.

Lemma Z_of_byte_of_Z (z : Z) : Z_of_byte (byte_of_Z z) = z mod 256.
Proof.
  unfold Z_of_byte, byte_of_Z.
  assert (Hr : 0 <= z mod 256 < 256) by (apply Z.mod_pos_bound; lia).
  destruct (Byte.of_N (Z.to_N (z mod 256))) as [b|] eqn:E.
  - apply Byte.to_of_N in E. rewrite E. lia.
  - apply Byte.of_N_None_iff in E. lia.
Qed.

Lemma Z_of_byte_range (b : byte) : 0 <= Z_of_byte b < 256.
Proof.
  unfold Z_of_byte. pose proof (Byte.to_N_bounded b). lia.
Qed.

Lemma split16 (z : Z) :
  z mod 256 + 256 * ((z / 256) mod 256) = z mod 65536.
Proof.
  change 65536 with (256 * 256). rewrite Z.rem_mul_r by lia. reflexivity.
Qed.

Lemma split32 (z : Z) :
  z mod 256 + 256 * ((z / 256) mod 256)
  + 65536 * ((z / 65536) mod 256) + 16777216 * ((z / 16777216) mod 256)
  = z mod 4294967296.
Proof.
  change 4294967296 with (65536 * 65536).
  rewrite Z.rem_mul_r by lia.
  rewrite <- (split16 z), <- (split16 (z / 65536)).
  replace (z / 65536 / 256) with (z / 16777216)
    by (rewrite Z.div_div by lia; reflexivity).
  lia.
Qed.

(** A field written little-endian reads back as the value, reduced to
    the field's width. *)
Lemma get_u16le_here (z : Z) (rest : list byte) :
  get_u16le 0 (u16le z ++ rest) = Some (z mod 65536).
Proof.
  unfold get_u16le, u16le. simpl.
  rewrite !Z_of_byte_of_Z. f_equal. apply split16.
Qed.

Lemma get_u32le_here (z : Z) (rest : list byte) :
  get_u32le 0 (u32le z ++ rest) = Some (z mod 4294967296).
Proof.
  unfold get_u32le, u32le. simpl.
  rewrite !Z_of_byte_of_Z. f_equal. apply split32.
Qed.

Lemma get_u16le_skip (pre l : list byte) :
  get_u16le (List.length pre) (pre ++ l) = get_u16le 0 l.
Proof.
  unfold get_u16le. rewrite skipn_app, Nat.sub_diag, skipn_all. reflexivity.
Qed.

Lemma get_u32le_skip (pre l : list byte) :
  get_u32le (List.length pre) (pre ++ l) = get_u32le 0 l.
Proof.
  unfold get_u32le. rewrite skipn_app, Nat.sub_diag, skipn_all. reflexivity.
Qed.

End BytesFacts.

(** ** The WAV encoder *)

Module WavFacts.
Import Bytes BytesFacts Wav.
Local Open Scope nat_scope.

Local Arguments byte_of_Z : simpl never.
Local Arguments Z_of_byte : simpl never.

Section Encoder.

Variable pcm16 : Q -> Z.

Lemma interleave_length (b : AudioBuffer) :
  List.length (interleave b) = frames b * numberOfChannels b.
Proof.
  unfold interleave.
  generalize 0 at 2. induction (frames b) as [|s IH]; intros start; simpl.
  - reflexivity.
  - rewrite length_app, length_map, length_seq, IH. reflexivity.
Qed.

Lemma data_length (samples : list Q) :
  List.length (flat_map (sample_bytes pcm16) samples) = List.length samples * 2.
Proof.
  induction samples as [|s samples IH]; simpl; [reflexivity | now rewrite IH].
Qed.

Lemma header_length (numChannels rate dataLen : Z) :
  List.length (header numChannels rate dataLen) = 44.
Proof. reflexivity. Qed.

(** The fields of the header, read back from the file. *)
Lemma header_fields (numChannels rate dataLen : Z) (data : list byte) :
  let wav := header numChannels rate dataLen ++ data in
  get_tag 0 wav = list_byte_of_string "RIFF" /\
  get_tag 8 wav = list_byte_of_string "WAVE" /\
  get_tag 12 wav = list_byte_of_string "fmt " /\
  get_u16le 20 wav = Some 1%Z /\
  get_u16le 22 wav = Some (numChannels mod 65536)%Z /\
  get_u32le 24 wav = Some (rate mod 4294967296)%Z /\
  get_u16le 34 wav = Some 16%Z /\
  get_tag 36 wav = list_byte_of_string "data" /\
  get_u32le 40 wav = Some (dataLen mod 4294967296)%Z /\
  skipn 44 wav = data.
Proof.
  unfold header, get_tag, get_u16le, get_u32le, u16le, u32le. simpl.
  rewrite !Z_of_byte_of_Z, !split32, !split16.
  repeat split; reflexivity.
Qed.

End Encoder.

(** C1.  For every audio buffer with [s] frames per channel and [c]
    channels the file that [audioBufferToWav] emits is [44 + s*c*2]
    bytes long: a 44-byte RIFF/WAVE header whose format tag is 1 (PCM),
    whose channel count and sample rate are the buffer's (as the 16- and
    32-bit fields hold them) and whose depth is 16 bits, followed by the
    [s*c] interleaved samples at two bytes each and nothing else. *)
Theorem audioBufferToWav_layout (pcm16 : Q -> Z) (b : AudioBuffer) :
  let wav := audioBufferToWav pcm16 b in
  let s := frames b in
  let c := numberOfChannels b in
  List.length wav = 44 + s * c * 2 /\
  get_tag 0 wav = list_byte_of_string "RIFF" /\
  get_tag 8 wav = list_byte_of_string "WAVE" /\
  get_u16le 20 wav = Some 1%Z /\
  get_u16le 22 wav = Some (Z.of_nat c mod 65536)%Z /\
  get_u32le 24 wav = Some (sampleRate b mod 4294967296)%Z /\
  get_u16le 34 wav = Some 16%Z /\
  skipn 44 wav = flat_map (sample_bytes pcm16) (interleave b) /\
  List.length (interleave b) = s * c /\
  (forall x, List.length (sample_bytes pcm16 x) = 2).
Proof.
  intros wav s c. subst wav s c. unfold audioBufferToWav.
  pose proof (header_fields (Z.of_nat (numberOfChannels b)) (sampleRate b)
                (Z.of_nat (List.length (flat_map (sample_bytes pcm16) (interleave b))))
                (flat_map (sample_bytes pcm16) (interleave b))) as H.
  cbv zeta in H |- *.
  destruct H as (H0 & H8 & _ & H20 & H22 & H24 & H34 & _ & _ & H44).
  rewrite length_app, header_length, data_length, interleave_length.
  repeat split; assumption || reflexivity.
Qed.

(** The encoder run on a two-frame stereo buffer. *)
Example stereo2_wav :
  audioBufferToWav pcm16_usual Samples.stereo2 =
  [ "R"; "I"; "F"; "F"; x2c; x00; x00; x00; "W"; "A"; "V"; "E";
    "f"; "m"; "t"; " "; x10; x00; x00; x00; x01; x00; x02; x00;
    x80; xbb; x00; x00; x00; xee; x02; x00; x04; x00; x10; x00;
    "d"; "a"; "t"; "a"; x08; x00; x00; x00;
    xff; x7f; xff; x7f; x00; xc0; x00; x00 ]%byte.
Proof. vm_compute. reflexivity. Qed.

End WavFacts.

(** ** The radar visualizer *)

Module RadarFacts.
Import Bytes BytesFacts Radar.
Local Open Scope Q_scope.

Lemma getByteFrequencyData_fresh (a : AnalyserNode) :
  getByteFrequencyData a (Uint8Array_new (frequencyBinCount a)) = freqData a.
Proof.
  unfold getByteFrequencyData, Uint8Array_new, frequencyBinCount.
  rewrite repeat_length, firstn_all, skipn_all2.
  - apply app_nil_r.
  - rewrite repeat_length. lia.
Qed.

(** The loop adds up the [n] entries from index [i] on. *)
Lemma bass_loop_sum (dataArray : list byte) (n i : nat) (sum : Z) :
  (i + n <= List.length dataArray)%nat ->
  bass_loop dataArray n i sum
  = (sum + fold_right Z.add 0 (map Z_of_byte (firstn n (skipn i dataArray))))%Z.
Proof.
  revert i sum. induction n as [|n IH]; intros i sum Hlen; simpl.
  - lia.
  - assert (Hi : (i < List.length dataArray)%nat) by lia.
    destruct (lookup_lt_is_Some_2 dataArray i Hi) as [x Hx].
    rewrite (drop_S _ _ _ Hx). simpl.
    rewrite IH by lia.
    rewrite (nth_lookup_Some _ _ x00 _ Hx). lia.
Qed.

Lemma quarter_le (n : nat) : (Nat.div n 4 <= n)%nat.
Proof. apply Nat.Div0.div_le_upper_bound. lia. Qed.

Lemma average_eq (a : AnalyserNode) :
  snd (audio_data (Some a)) = bass_mean (freqData a).
Proof.
  unfold audio_data, bass_mean. cbv zeta. cbn [snd].
  rewrite getByteFrequencyData_fresh. unfold frequencyBinCount.
  rewrite bass_loop_sum by apply quarter_le.
  reflexivity.
Qed.

Lemma js_div_nat_defined (x : Q) (k : nat) :
  (1 <= k)%nat -> js_div x (inject_Z (Z.of_nat k)) = Some (x / inject_Z (Z.of_nat k)).
Proof.
  intros Hk. unfold js_div.
  destruct (Qeq_bool (inject_Z (Z.of_nat k)) 0) eqn:E; [|reflexivity].
  apply Qeq_bool_eq in E. unfold Qeq in E. simpl in E. lia.
Qed.

Lemma average_defined (a : AnalyserNode) :
  (4 <= frequencyBinCount a)%nat ->
  exists avg, snd (audio_data (Some a)) = Some avg.
Proof.
  intros H. unfold audio_data. cbv zeta. cbn [snd].
  rewrite js_div_nat_defined; [eauto|].
  apply Nat.div_le_lower_bound; lia.
Qed.

(** C4.  For every frequency snapshot read from the analyser, of [n]
    bytes, the bass proxy [average] of a frame is the arithmetic mean of
    the lowest quarter of the bins: the sum of the entries at indices
    [0 .. floor(n/4) - 1] divided by [floor(n/4)]. *)
Theorem average_is_bass_mean (a : AnalyserNode) :
  let n := List.length (freqData a) in
  let quarter := Nat.div n 4 in
  fst (audio_data (Some a)) = freqData a /\
  snd (audio_data (Some a)) =
    js_div (inject_Z (fold_right Z.add 0%Z (map Z_of_byte (firstn quarter (freqData a)))))
           (inject_Z (Z.of_nat quarter)) /\
  snd (audio_data (Some a)) = bass_mean (freqData a).
Proof.
  cbv zeta. split; [|split].
  - unfold audio_data. cbv zeta. cbn [fst]. apply getByteFrequencyData_fresh.
  - rewrite average_eq. reflexivity.
  - apply average_eq.
Qed.

(** *** The pulse radius *)

Section Frames.

Variables Math_sin Math_cos : Q -> Q.

(** The radius of line 57 is the one the frame draws with; without a
    finite radius the frame stops at the radial gradient. *)
Lemma draw_radius (canvas : Canvas) (isPlaying : bool)
    (analyser : option AnalyserNode) (now : nat -> Z) :
  let w := inject_Z (width canvas) in
  let h := inject_Z (height canvas) in
  match visualRadius Math_sin isPlaying analyser now with
  | Some r =>
      exists rest,
        draw Math_sin Math_cos canvas isPlaying analyser now
        = (draw_setup w h ++ draw_core (w / 2) (h / 2) r ++ rest, Scheduled)
  | None =>
      draw Math_sin Math_cos canvas isPlaying analyser now = (draw_setup w h, Thrown)
  end.
Proof.
  cbv zeta. unfold visualRadius, draw.
  destruct (audio_data analyser) as [dataArray average]. cbn [snd].
  destruct (pulse Math_sin isPlaying average now) as [[p|] reads]; cbn [fst option_map].
  - eexists. reflexivity.
  - reflexivity.
Qed.

Lemma breathing_range (x : Q) :
  -1 <= Math_sin x <= 1 -> 0 <= Math_sin x * 5 + 5 <= 10.
Proof. intros [Hlo Hhi]. split; lra. Qed.

End Frames.

(** C5.  The pulse radius of a frame is the base radius 70 plus an
    intensity: while audio is playing, the bass average divided by 3,
    whatever the clock reads; while idle, a breathing value, the sine of
    the clock reading over 1500, times 5 plus 5, which lies in [0,10]
    and does not depend on the snapshot.  That radius is the one the
    frame is drawn with. *)
Theorem pulse_radius (Math_sin Math_cos : Q -> Q)
    (Hsin : forall x, -1 <= Math_sin x <= 1)
    (canvas : Canvas) (analyser : option AnalyserNode) (now : nat -> Z) :
  visualRadius Math_sin true analyser now
    = option_map (fun average => 70 + average / 3) (snd (audio_data analyser)) /\
  (forall now', visualRadius Math_sin true analyser now'
                = visualRadius Math_sin true analyser now) /\
  (exists breathing,
      breathing = Math_sin (inject_Z (now O) / 1500) * 5 + 5 /\
      0 <= breathing <= 10 /\
      forall analyser',
        visualRadius Math_sin false analyser' now = Some (70 + breathing)) /\
  (forall isPlaying,
      match visualRadius Math_sin isPlaying analyser now with
      | Some r =>
          In (arc (inject_Z (width canvas) / 2) (inject_Z (height canvas) / 2)
                  (r - 5) 0 (Math_PI * 2))
             (fst (draw Math_sin Math_cos canvas isPlaying analyser now))
      | None => snd (draw Math_sin Math_cos canvas isPlaying analyser now) = Thrown
      end).
Proof.
  repeat split.
  - unfold visualRadius, pulse. cbn [fst].
    destruct (snd (audio_data analyser)); reflexivity.
  - eexists. split; [reflexivity|]. split; [apply breathing_range, Hsin|].
    intros analyser'. reflexivity.
  - intros isPlaying.
    pose proof (draw_radius Math_sin Math_cos canvas isPlaying analyser now) as H.
    cbv zeta in H.
    destruct (visualRadius Math_sin isPlaying analyser now) as [r|].
    + destruct H as [rest ->]. cbn [fst].
      apply in_or_app. right. apply in_or_app. left.
      unfold draw_core. simpl. tauto.
    + rewrite H. reflexivity.
Qed.

Lemma sin_approx_range (x : Q) : -1 <= Samples.sin_approx x <= 1.
Proof.
  unfold Samples.sin_approx. split.
  - apply Q.le_max_l.
  - apply Q.max_lub; [lra | apply Q.le_min_l].
Qed.

(** The radius for the [hum] snapshot: its lowest 32 bins add up to
    1185, so the radius is 70 + 1185/32/3 while playing, and 75 when
    idle at a clock reading of 0. *)
Example hum_radius :
  option_map Qred (visualRadius Samples.sin_approx true (Some Samples.hum)
                                (Samples.clock_at 0)) = Some (2635 # 32) /\
  option_map Qred (visualRadius Samples.sin_approx false (Some Samples.hum)
                                (Samples.clock_at 0)) = Some 75.
Proof. vm_compute. split; reflexivity. Qed.

Lemma pulse_radius_witness :
  (forall x, -1 <= Samples.sin_approx x <= 1) /\
  visualRadius Samples.sin_approx true (Some Samples.hum)
               (Samples.clock_at 1700000000000)
    = option_map (fun average => 70 + average / 3)
                 (snd (audio_data (Some Samples.hum))).
Proof.
  split; [exact sin_approx_range|].
  apply (pulse_radius Samples.sin_approx Samples.cos_approx sin_approx_range
           Samples.canvas400 (Some Samples.hum) (Samples.clock_at 1700000000000)).
Defined.

(** *** The spectrum bars *)

Lemma spectrum_bars_length (dataArray : list byte) (binCount : nat) :
  List.length (spectrum_bars dataArray binCount) = 64%nat.
Proof. unfold spectrum_bars. rewrite length_map, length_seq. reflexivity. Qed.

Lemma spectrum_bars_nth (dataArray : list byte) (binCount i : nat) :
  (i < 64)%nat ->
  nth_error (spectrum_bars dataArray binCount) i
  = Some (spectrum_bar dataArray (Nat.div binCount 64) i).
Proof.
  intros Hi. unfold spectrum_bars. cbv zeta.
  rewrite nth_error_map.
  rewrite (nth_error_nth' _ O) by (rewrite length_seq; exact Hi).
  rewrite seq_nth by exact Hi. reflexivity.
Qed.

(** The bar law: four pixels at least, and linear from there on. *)
Lemma bar_height_floor (value : Q) :
  value * 100 <= 1020 -> Qmax 4 (value / 255 * 100) == 4.
Proof.
  intros H. apply Q.max_l.
  assert (E : value / 255 * 100 == value * 100 / 255) by field.
  rewrite E. apply Qle_shift_div_r; [reflexivity | lra].
Qed.

Lemma bar_height_linear (value : Q) :
  1020 <= value * 100 -> Qmax 4 (value / 255 * 100) == value / 255 * 100.
Proof.
  intros H. apply Q.max_r.
  assert (E : value / 255 * 100 == value * 100 / 255) by field.
  rewrite E. apply Qle_shift_div_l; [reflexivity | lra].
Qed.

Section Bars.

Variables Math_sin Math_cos : Q -> Q.

Lemma bars_drawn_bars (centerX centerY r : Q) (bs : list spectrumBar) :
  bars_drawn (flat_map (draw_bar Math_sin Math_cos centerX centerY r) bs)
  = List.length bs.
Proof.
  unfold bars_drawn. induction bs as [|b bs IH]; simpl; [reflexivity | now rewrite IH].
Qed.

Lemma draw_playing (canvas : Canvas) (a : AnalyserNode) (now : nat -> Z) (avg : Q) :
  snd (audio_data (Some a)) = Some avg ->
  let w := inject_Z (width canvas) in
  let h := inject_Z (height canvas) in
  let r := 70 + avg / 3 in
  visualRadius Math_sin true (Some a) now = Some r /\
  draw Math_sin Math_cos canvas true (Some a) now
  = (draw_setup w h ++ draw_core (w / 2) (h / 2) r
     ++ draw_spectrum Math_sin Math_cos (w / 2) (h / 2) r
          (freqData a) (frequencyBinCount a),
     Scheduled).
Proof.
  intros Havg. cbv zeta. unfold visualRadius, draw.
  pose proof (getByteFrequencyData_fresh a) as Hdata.
  destruct (audio_data (Some a)) as [dataArray average] eqn:E.
  assert (dataArray = freqData a) as ->.
  { unfold audio_data in E. cbv zeta in E. injection E as <- _. exact Hdata. }
  cbn [snd] in *. subst average. split; reflexivity.
Qed.

End Bars.

(** C3, as the code has it.  A frame drawn while audio is playing, with
    an analyser (of at least four bins, as every analyser has), draws
    exactly 64 spectrum bars, evenly spaced: bar [i] stands at the angle
    [(i/64) * 2 pi - pi/2], samples the byte [v] at index [i * step] and
    has the length [max(4, (v/255)*100)]: the linear value [(v/255)*100]
    from [v = 11] on, and four pixels below. *)
Theorem spectrum_frame (Math_sin Math_cos : Q -> Q)
    (canvas : Canvas) (a : AnalyserNode) (now : nat -> Z)
    (Hbins : (4 <= frequencyBinCount a)%nat) :
  let calls := fst (draw Math_sin Math_cos canvas true (Some a) now) in
  let bs := spectrum_bars (freqData a) (frequencyBinCount a) in
  let step := Nat.div (frequencyBinCount a) 64 in
  snd (draw Math_sin Math_cos canvas true (Some a) now) = Scheduled /\
  bars_drawn calls = 64%nat /\
  (exists r,
      visualRadius Math_sin true (Some a) now = Some r /\
      exists before,
        calls = before ++ flat_map (draw_bar Math_sin Math_cos
                                      (inject_Z (width canvas) / 2)
                                      (inject_Z (height canvas) / 2) r) bs) /\
  List.length bs = 64%nat /\
  (forall i, (i < 64)%nat ->
     exists b v,
       nth_error bs i = Some b /\
       v = nth (i * step) (freqData a) x00 /\
       bar_value b = Q_of_byte v /\
       bar_angle b = inject_Z (Z.of_nat i) / 64 * Math_PI * 2 - Math_PI / 2 /\
       bar_height b = Qmax 4 (Q_of_byte v / 255 * 100) /\
       ((11 <= Z_of_byte v)%Z -> bar_height b == Q_of_byte v / 255 * 100) /\
       ((Z_of_byte v <= 10)%Z -> bar_height b == 4)).
Proof.
  cbv zeta.
  destruct (average_defined a Hbins) as [avg Havg].
  destruct (draw_playing Math_sin Math_cos canvas a now avg Havg) as [Hr Hdraw].
  cbv zeta in Hr, Hdraw. rewrite Hdraw. cbn [fst snd].
  split; [reflexivity|]. split; [|split; [|split]].
  - unfold draw_spectrum.
    rewrite !app_assoc. unfold bars_drawn. rewrite List.filter_app, length_app.
    fold (bars_drawn (flat_map (draw_bar Math_sin Math_cos
            (inject_Z (width canvas) / 2) (inject_Z (height canvas) / 2)
            (70 + avg / 3)) (spectrum_bars (freqData a) (frequencyBinCount a)))).
    rewrite bars_drawn_bars, spectrum_bars_length. reflexivity.
  - exists (70 + avg / 3). split; [exact Hr|].
    unfold draw_spectrum. eexists. rewrite !app_assoc. reflexivity.
  - apply spectrum_bars_length.
  - intros i Hi.
    exists (spectrum_bar (freqData a) (Nat.div (frequencyBinCount a) 64) i).
    exists (nth (i * Nat.div (frequencyBinCount a) 64) (freqData a) x00).
    split; [apply spectrum_bars_nth, Hi|].
    repeat split; unfold spectrum_bar; cbn [bar_height].
    + intros Hv. apply bar_height_linear.
      unfold Q_of_byte. rewrite <- (inject_Z_mult _ 100).
      change 1020 with (inject_Z 1020). rewrite <- Zle_Qle. lia.
    + intros Hv. apply bar_height_floor.
      unfold Q_of_byte. rewrite <- (inject_Z_mult _ 100).
      change 1020 with (inject_Z 1020). rewrite <- Zle_Qle. lia.
Qed.

Lemma hum_bins : (4 <= frequencyBinCount Samples.hum)%nat.
Proof. vm_compute. lia. Defined.

Lemma spectrum_frame_witness :
  (4 <= frequencyBinCount Samples.hum)%nat /\
  bars_drawn (fst (draw Samples.sin_approx Samples.cos_approx Samples.canvas400
                        true (Some Samples.hum) (Samples.clock_at 1700000000000)))
  = 64%nat.
Proof.
  split; [exact hum_bins|].
  apply (spectrum_frame Samples.sin_approx Samples.cos_approx Samples.canvas400
           Samples.hum (Samples.clock_at 1700000000000) hum_bins).
Defined.

(** The bars of the [hum] snapshot: the first one, at 255, is 100 pixels
    long; the others, at 30, follow the linear law. *)
Example hum_bar_heights :
  map (fun b => Qred (bar_height b))
      (firstn 3 (spectrum_bars (freqData Samples.hum) (frequencyBinCount Samples.hum)))
  = [100; 200 # 17; 200 # 17].
Proof. vm_compute. reflexivity. Qed.

(** C3, as the specification words it, fails: the first bar of a silent
    frame samples the byte 0 and is 4 pixels long, not [(0/255)*100 = 0],
    and it stands at the angle [-pi/2], not [0]. *)
Lemma bar_of_silence_not_linear :
  exists b,
    nth_error (spectrum_bars (freqData Samples.silence)
                             (frequencyBinCount Samples.silence)) 0 = Some b /\
    bar_value b == 0 /\
    bar_height b == 4 /\
    ~ bar_height b == bar_value b / 255 * 100 /\
    ~ bar_angle b == 2 * Math_PI * 0 / 64.
Proof.
  eexists. split; [reflexivity|].
  repeat split; vm_compute; congruence.
Qed.

(** *** Frames as steps of the component *)

Section Stateless.

Variables Math_sin Math_cos : Q -> Q.

Lemma draw_clock (canvas : Canvas) (isPlaying : bool)
    (analyser : option AnalyserNode) (now now' : nat -> Z) :
  now O = now' O -> now 1%nat = now' 1%nat ->
  draw Math_sin Math_cos canvas isPlaying analyser now
  = draw Math_sin Math_cos canvas isPlaying analyser now'.
Proof.
  intros H0 H1. unfold draw, pulse.
  destruct (audio_data analyser) as [dataArray average].
  destruct isPlaying; rewrite ?H0, ?H1; reflexivity.
Qed.

Lemma frame_calls (st : VisState) (canvas : Canvas) (isPlaying : bool)
    (analyser : option AnalyserNode) (now : nat -> Z) :
  snd (frame Math_sin Math_cos st canvas isPlaying analyser now)
  = fst (draw Math_sin Math_cos canvas isPlaying analyser now).
Proof.
  unfold frame.
  destruct (draw Math_sin Math_cos canvas isPlaying analyser now) as [calls []];
    reflexivity.
Qed.

End Stateless.

(** C8, as the specification words it, fails: at one clock reading and
    one snapshot, the frame drawn while playing (64 bars) and the frame
    drawn while idle (8 particles) differ. *)
Lemma frame_depends_on_isPlaying :
  snd (frame Samples.sin_approx Samples.cos_approx (mkVis None 1)
             Samples.canvas400 true (Some Samples.hum) (Samples.clock_at 5))
  <> snd (frame Samples.sin_approx Samples.cos_approx (mkVis None 1)
                Samples.canvas400 false (Some Samples.hum) (Samples.clock_at 5)).
Proof.
  intros H. apply (f_equal (@List.length cmd)) in H.
  vm_compute in H. discriminate H.
Qed.

End RadarFacts.

(** ** The application *)

Module AppFacts.
Import Bytes BytesFacts Wav WavFacts App.
Local Open Scope nat_scope.

Local Arguments audioBufferToWav : simpl never.

(** *** Blank scripts *)

Lemma trimStart_nil (l : list ascii) :
  trimStart l = [] <-> forallb is_whitespace l = true.
Proof.
  induction l as [|c l IH]; simpl; [tauto|].
  destruct (is_whitespace c); simpl; [exact IH | split; discriminate].
Qed.

Lemma trimStart_keeps_last (l : list ascii) (c : ascii) :
  is_whitespace c = false -> trimStart (l ++ [c]) <> [].
Proof.
  intros Hc. induction l as [|d l IH]; simpl.
  - rewrite Hc. discriminate.
  - destruct (is_whitespace d); [exact IH | discriminate].
Qed.

Lemma trimStart_head (l : list ascii) (c : ascii) (r : list ascii) :
  trimStart l = c :: r -> is_whitespace c = false.
Proof.
  induction l as [|d l IH]; simpl; [discriminate|].
  destruct (is_whitespace d) eqn:E; [exact IH|].
  intros [= -> _]. exact E.
Qed.

(** [!text.trim()] holds exactly of the scripts made of white space. *)
Lemma trim_blank (s : string) :
  truthy (trim s) = false <-> forallb is_whitespace (list_ascii_of_string s) = true.
Proof.
  unfold trim. rewrite <- trimStart_nil.
  destruct (trimStart (list_ascii_of_string s)) as [|c r] eqn:E.
  - simpl. tauto.
  - split; [|discriminate].
    pose proof (trimStart_head _ _ _ E) as Hc.
    pose proof (trimStart_keeps_last (rev r) c Hc) as Hne.
    simpl rev.
    destruct (trimStart (rev r ++ [c])) as [|d t] eqn:E'; [congruence|].
    simpl rev. destruct (rev t); simpl; discriminate.
Qed.

(** *** What the pieces of the handlers leave alone *)

(** Case analysis on the branches of a handler, until both sides are
    the same record. *)
Ltac branches :=
  repeat match goal with
         | |- context [match ?x with _ => _ end] => destruct x eqn:?
         end;
  try reflexivity.

Lemma stop_only_nodes (i : nat) (s : State) :
  stop i s = setNodes (nodes (stop i s)) s.
Proof. unfold stop. destruct s. branches. Qed.

Lemma ensureAudioContext_only_ctx (s : State) :
  ensureAudioContext s = setAudioContextRef (audioContextRef (ensureAudioContext s)) s.
Proof. unfold ensureAudioContext. destruct s. branches. Qed.

Lemma ensureAudioContext_is_Some (s : State) (ctx : AudioContext) :
  audioContextRef s = Some ctx ->
  exists ctx', audioContextRef (ensureAudioContext s) = Some ctx'.
Proof.
  intros H. unfold ensureAudioContext. rewrite H.
  destruct (state ctx); [eexists; reflexivity | eauto].
Qed.

Section Handlers.

Variable API_KEY : string.
Variable pcm16 : Q -> Z.
Variable decodeBase64 : string -> option (list byte).
Variable decodeSamples : list byte -> nat -> nat * (nat -> nat -> Q).

Abbreviation generateSpeech := (generateSpeech API_KEY decodeBase64 decodeSamples).
Abbreviation handleGenerate_finish :=
  (handleGenerate_finish API_KEY pcm16 decodeBase64 decodeSamples).
Abbreviation handleGenerate := (handleGenerate API_KEY pcm16 decodeBase64 decodeSamples).
Abbreviation handlePreview_finish :=
  (handlePreview_finish API_KEY decodeBase64 decodeSamples).
Abbreviation handlePreview := (handlePreview API_KEY decodeBase64 decodeSamples).

Abbreviation service_trace := (service_trace API_KEY).

(** The result of the service does not depend on the application's
    state. *)
Lemma generateSpeech_result (text : string) (voice : VoiceName)
    (ctx : AudioContext) (reply : ApiReply) (s1 s2 : State) :
  snd (generateSpeech text voice ctx reply s1)
  = snd (generateSpeech text voice ctx reply s2).
Proof. unfold App.generateSpeech. branches. Qed.

(** A service call that throws leaves the state as it was, but for the
    trace. *)
Lemma generateSpeech_throws (text : string) (voice : VoiceName)
    (ctx : AudioContext) (reply : ApiReply) (s : State) (e : Error) :
  snd (generateSpeech text voice ctx reply s) = inl e ->
  fst (generateSpeech text voice ctx reply s)
  = fold_left (fun s x => emit x s) (service_trace text voice e) s.
Proof.
  unfold App.generateSpeech, service_trace.
  destruct (truthy API_KEY); cbn [negb].
  - destruct reply as [reason|[base64Audio|]]; cbn [fst snd].
    + intros [= <-]. reflexivity.
    + destruct (truthy base64Audio); cbn [negb fst snd].
      * destruct (decodeBase64 base64Audio); cbn [fst snd];
          [discriminate | intros [= <-]; reflexivity].
      * intros [= <-]. reflexivity.
    + intros [= <-]. reflexivity.
  - intros _. reflexivity.
Qed.

(** A service call that returns a buffer records the request only, and
    the buffer is mono at 24 kHz. *)
Lemma generateSpeech_returns (text : string) (voice : VoiceName)
    (ctx : AudioContext) (reply : ApiReply) (s : State) (b : AudioBuffer) :
  snd (generateSpeech text voice ctx reply s) = inr b ->
  fst (generateSpeech text voice ctx reply s) = emit (ApiRequest text voice) s /\
  numberOfChannels b = 1 /\ sampleRate b = 24000%Z.
Proof.
  unfold App.generateSpeech.
  destruct (truthy API_KEY); cbn [negb]; [|discriminate].
  destruct reply as [reason|[base64Audio|]]; cbn [fst snd]; try discriminate.
  destruct (truthy base64Audio); cbn [negb fst snd]; [|discriminate].
  destruct (decodeBase64 base64Audio) as [rawBytes|]; cbn [fst snd]; [|discriminate].
  intros [= <-]. unfold decodeAudioData.
  destruct (decodeSamples rawBytes 1). repeat split.
Qed.

(** The three failures the specification names, and the one error each
    raises. *)
Lemma generateSpeech_errors (text : string) (voice : VoiceName)
    (ctx : AudioContext) (s : State) :
  (truthy API_KEY = false ->
   forall reply, snd (generateSpeech text voice ctx reply s) = inl ApiKeyMissing) /\
  (truthy API_KEY = true ->
   (forall reason,
       snd (generateSpeech text voice ctx (Rejected reason) s)
       = inl (RequestFailed reason)) /\
   snd (generateSpeech text voice ctx (Responded None) s) = inl NoAudioData /\
   snd (generateSpeech text voice ctx (Responded (Some ""%string)) s) = inl NoAudioData).
Proof.
  unfold App.generateSpeech. split; intros ->; cbn [negb]; repeat split.
Qed.

(** Passing the guards of [handleGenerate]. *)
Lemma handleGenerate_enter_passes (s s1 : State) (c : GenerateClosure) :
  handleGenerate_enter s = (s1, Some c) ->
  s1 = ensureAudioContext s /\
  g_text c = text s /\
  g_downloadUrl c = downloadUrl s /\
  audioContextRef s = Some (g_ctx c) /\
  truthy (trim (text s)) = true /\
  String.length (text s) <= MAX_CHARS.
Proof.
  unfold handleGenerate_enter.
  destruct (audioContextRef s) as [ctx|]; [|discriminate].
  destruct (truthy (trim (text s))); cbn [negb]; [|discriminate].
  destruct (MAX_CHARS <? String.length (text s)) eqn:Hlen; [discriminate|].
  destruct (find _ VOICE_OPTIONS); [|discriminate].
  intros [= <- <-]. cbn. apply Nat.ltb_ge in Hlen. tauto.
Qed.

Lemma stop_not_playing (i : nat) (s : State) (n : SourceNode) :
  nodes (stop i s) !! i = Some n -> status n <> Playing.
Proof.
  unfold stop. destruct (nodes s !! i) as [m|] eqn:E; cbn [nodes setNodes].
  - rewrite list_lookup_insert_eq by (eapply lookup_lt_Some; exact E).
    intros [= <-]. unfold stop_node. destruct (status m) eqn:Es; cbn; congruence.
  - congruence.
Qed.

Lemma stopAudio_fields (s : State) :
  let s' := stopAudio s in
  text s' = text s /\ selectedVoiceId s' = selectedVoiceId s /\
  isLoading s' = isLoading s /\ audioBuffer s' = audioBuffer s /\
  downloadUrl s' = downloadUrl s /\ audioContextRef s' = audioContextRef s /\
  analyserRef s' = analyserRef s /\ blobs s' = blobs s /\
  nextUrl s' = nextUrl s /\ log s' = log s /\
  isPlaying s' = false /\ previewVoiceId s' = None /\ sourceNodeRef s' = None /\
  (forall i n, sourceNodeRef s = Some i -> nodes s' !! i = Some n ->
               status n <> Playing).
Proof.
  cbv zeta. unfold stopAudio.
  destruct (sourceNodeRef s) as [i|] eqn:Eref.
  - rewrite (stop_only_nodes i s). cbn. repeat split.
    intros j n [= <-]. apply stop_not_playing.
  - cbn. repeat split; [exact Eref | intros i n Hi; discriminate Hi].
Qed.

Lemma handleGenerate_prepare_fields (c : GenerateClosure) (s : State) :
  let s' := handleGenerate_prepare c s in
  text s' = text s /\ audioContextRef s' = audioContextRef s /\
  analyserRef s' = analyserRef s /\
  audioBuffer s' = None /\ downloadUrl s' = None /\ isLoading s' = true /\
  isPlaying s' = false /\ previewVoiceId s' = None /\ sourceNodeRef s' = None /\
  log s' = log s ++ revoked (g_downloadUrl c) /\
  (forall u, g_downloadUrl c = Some u -> blobs s' !! u = None) /\
  (forall i n, sourceNodeRef s = Some i -> nodes s' !! i = Some n ->
               status n <> Playing).
Proof.
  cbv zeta. unfold handleGenerate_prepare.
  match goal with |- context [stopAudio ?x] => pose proof (stopAudio_fields x) as H end.
  cbv zeta in H.
  destruct H as (Ht & _ & Hl & Hb & Hd & Hc & Ha & Hblobs & _ & Hlog & Hp & Hv & Hr & Hn).
  rewrite Ht, Hl, Hb, Hd, Hc, Ha, Hblobs, Hlog, Hp, Hv, Hr.
  destruct (g_downloadUrl c) as [u|]; cbn; rewrite ?app_nil_r;
    repeat split; try assumption; try congruence.
  intros u' [= <-]. apply lookup_delete_eq.
Qed.

(** A generation that fails: where it ends. *)
Lemma handleGenerate_failure (reply : ApiReply) (s s1 : State)
    (c : GenerateClosure) (e : Error) :
  handleGenerate_enter s = (s1, Some c) ->
  snd (generateSpeech (g_text c) (apiVoice (g_option c)) (g_ctx c) reply s) = inl e ->
  handleGenerate reply s
  = setIsLoading false
      (alert "Generation failed. Please try again."
         (emit (ConsoleError e)
            (fold_left (fun s x => emit x s)
               (service_trace (g_text c) (apiVoice (g_option c)) e)
               (handleGenerate_prepare c s1)))).
Proof.
  intros Henter Hfail. unfold App.handleGenerate, App.handleGenerate_finish.
  rewrite Henter.
  rewrite (generateSpeech_result _ _ _ _ s (handleGenerate_prepare c s1)) in Hfail.
  pose proof (generateSpeech_throws _ _ _ _ _ _ Hfail) as Hst.
  destruct (App.generateSpeech _ _ _ _ _ _ _ (handleGenerate_prepare c s1)) as [s2 r].
  cbn [fst snd] in *. subst. reflexivity.
Qed.

(** C10.  A generation that passes the guards and whose service call
    throws ends with no audio buffer and no download URL: before the
    call the buffer is cleared, the previous URL revoked and cleared and
    the playback stopped, and the failure restores none of it. *)
Theorem failed_generation_loses_audio (reply : ApiReply) (s s1 : State)
    (c : GenerateClosure) (e : Error)
    (Henter : handleGenerate_enter s = (s1, Some c))
    (Hfail : snd (generateSpeech (g_text c) (apiVoice (g_option c)) (g_ctx c) reply s)
             = inl e) :
  let s' := handleGenerate reply s in
  audioBuffer s' = None /\
  downloadUrl s' = None /\
  (forall u, downloadUrl s = Some u -> blobs s' !! u = None) /\
  sourceNodeRef s' = None /\
  (forall i n, sourceNodeRef s = Some i -> nodes s' !! i = Some n ->
               status n <> Playing) /\
  isPlaying s' = false /\
  isLoading s' = false /\
  log s' = log s ++ revoked (downloadUrl s)
                 ++ service_trace (text s) (apiVoice (g_option c)) e
                 ++ [ConsoleError e; Alert "Generation failed. Please try again."].
Proof.
  cbv zeta. rewrite (handleGenerate_failure reply s s1 c e Henter Hfail).
  destruct (handleGenerate_enter_passes s s1 c Henter) as (-> & Htext & Hurl & _).
  pose proof (handleGenerate_prepare_fields c (ensureAudioContext s)) as H.
  cbv zeta in H.
  destruct H as (_ & _ & _ & Hb & Hd & _ & Hp & _ & Hr & Hlog & Hblobs & Hn).
  assert (Hl : log (ensureAudioContext s) = log s)
    by (rewrite (ensureAudioContext_only_ctx s); reflexivity).
  assert (Hs : sourceNodeRef (ensureAudioContext s) = sourceNodeRef s)
    by (rewrite (ensureAudioContext_only_ctx s); reflexivity).
  rewrite Hl, Hurl in Hlog. rewrite Hs in Hn. rewrite Hurl in Hblobs. rewrite Htext.
  remember (handleGenerate_prepare c (ensureAudioContext s)) as sp.
  unfold service_trace.
  destruct (truthy API_KEY); cbn; rewrite ?Hlog, <- ?app_assoc;
    repeat split; auto.
Qed.

(** C9.  [handleGenerate] turns its input away before it contacts the
    service.  On an empty or blank script it returns at once and changes
    nothing.  On a script of more than 5000 characters it returns with
    the audio buffer, the download URL and the loading flag as they
    were, and with nothing else changed but for the alert, which it
    shows (the script not being blank, and the audio context being
    there, as it is once the component has mounted). *)
Theorem handleGenerate_refuses (reply : ApiReply) (s : State) :
  (forallb is_whitespace (list_ascii_of_string (text s)) = true ->
   handleGenerate reply s = s) /\
  (MAX_CHARS < String.length (text s) ->
   let s' := handleGenerate reply s in
   let limit := alert "Character limit exceeded. Please reduce to 5000 characters." in
   audioBuffer s' = audioBuffer s /\
   downloadUrl s' = downloadUrl s /\
   isLoading s' = isLoading s /\
   (s' = s \/ s' = limit s) /\
   (forallb is_whitespace (list_ascii_of_string (text s)) = false ->
    audioContextRef s <> None ->
    s' = limit s)).
Proof.
  unfold App.handleGenerate, handleGenerate_enter. split.
  - intros Hblank. apply trim_blank in Hblank. rewrite Hblank. cbn [negb].
    destruct (audioContextRef s); reflexivity.
  - intros Hlong. cbv zeta. apply Nat.ltb_lt in Hlong. rewrite Hlong.
    destruct (audioContextRef s) as [ctx|].
    + destruct (truthy (trim (text s))) eqn:Htrim; cbn [negb].
      * repeat split; auto.
      * repeat split; auto.
        intros Hblank _. apply trim_blank in Htrim. congruence.
    + repeat split; auto. intros _ Hctx. congruence.
Qed.

(** Passing the guards of [handlePreview]. *)
Lemma handlePreview_enter_passes (voice : VoicePersona) (s s1 : State)
    (c : PreviewClosure) :
  handlePreview_enter voice s = (s1, Some c) ->
  s1 = ensureAudioContext s /\ p_voice c = voice /\
  audioContextRef s = Some (p_ctx c).
Proof.
  unfold handlePreview_enter.
  destruct (audioContextRef s) as [ctx|]; [|discriminate].
  destruct (previewVoiceId s) as [[|]|]; try discriminate;
    intros [= <- <-]; repeat split.
Qed.

(** A preview that fails: where it ends. *)
Lemma handlePreview_failure (voice : VoicePersona) (reply : ApiReply)
    (s s1 : State) (c : PreviewClosure) (e : Error) :
  handlePreview_enter voice s = (s1, Some c) ->
  (forall text v ctx s0, snd (generateSpeech text v ctx reply s0) = inl e) ->
  exists previewText,
    handlePreview voice reply s
    = setPreviewVoiceId None
        (emit (ConsoleError e)
           (fold_left (fun s x => emit x s)
              (service_trace previewText (apiVoice (p_voice c)) e)
              (handlePreview_prepare c s1))).
Proof.
  intros Henter Hfail. unfold App.handlePreview, App.handlePreview_finish.
  rewrite Henter. eexists.
  match goal with
  | |- context [App.generateSpeech _ _ _ ?t ?v ?x ?r ?st] =>
      pose proof (generateSpeech_throws t v x r st e (Hfail t v x st)) as Hst;
      pose proof (Hfail t v x st) as Hr;
      destruct (App.generateSpeech API_KEY decodeBase64 decodeSamples t v x r st)
        as [s2 res]
  end.
  cbn [fst snd] in *. subst. reflexivity.
Qed.

(** C2, as the code has it.  When the service call fails (the key is
    missing, the response carries no audio, the request fails) it raises
    one error.  A generation catches it and reports it in one alert; a
    preview catches it, logs it to the console and clears the preview
    marker, and shows no alert. *)
Theorem failure_reporting (reply : ApiReply) (e : Error)
    (Hfail : forall text voice ctx s0,
        snd (generateSpeech text voice ctx reply s0) = inl e)
    (s : State) :
  (forall s1 c,
      handleGenerate_enter s = (s1, Some c) ->
      exists trace,
        log (handleGenerate reply s) = log s ++ trace /\
        List.filter is_alert trace = [Alert "Generation failed. Please try again."]) /\
  (forall voice s1 c,
      handlePreview_enter voice s = (s1, Some c) ->
      exists trace,
        log (handlePreview voice reply s) = log s ++ trace /\
        List.filter is_alert trace = [] /\
        In (ConsoleError e) trace /\
        previewVoiceId (handlePreview voice reply s) = None) /\
  (truthy API_KEY = false -> e = ApiKeyMissing) /\
  (truthy API_KEY = true ->
   match reply with
   | Rejected reason => e = RequestFailed reason
   | Responded None => e = NoAudioData
   | Responded (Some data) => truthy data = false -> e = NoAudioData
   end).
Proof.
  split; [|split; [|split]].
  - intros s1 c Henter.
    rewrite (handleGenerate_failure reply s s1 c e Henter (Hfail _ _ _ _)).
    destruct (handleGenerate_enter_passes s s1 c Henter) as (-> & _).
    pose proof (handleGenerate_prepare_fields c (ensureAudioContext s)) as H.
    cbv zeta in H. destruct H as (_ & _ & _ & _ & _ & _ & _ & _ & _ & Hlog & _).
    assert (Hl : log (ensureAudioContext s) = log s)
      by (rewrite (ensureAudioContext_only_ctx s); reflexivity).
    rewrite Hl in Hlog.
    remember (handleGenerate_prepare c (ensureAudioContext s)) as sp.
    unfold service_trace, revoked in *.
    destruct (truthy API_KEY), (g_downloadUrl c); cbn; rewrite Hlog, <- ?app_assoc;
      eexists; (split; [reflexivity|]); reflexivity.
  - intros voice s1 c Henter.
    destruct (handlePreview_failure voice reply s s1 c e Henter Hfail) as [t ->].
    destruct (handlePreview_enter_passes voice s s1 c Henter) as (-> & _).
    assert (Hlog : log (handlePreview_prepare c (ensureAudioContext s)) = log s).
    { unfold handlePreview_prepare.
      match goal with |- context [stopAudio ?x] =>
        pose proof (stopAudio_fields x) as H end.
      cbv zeta in H. destruct H as (_ & _ & _ & _ & _ & _ & _ & _ & _ & -> & _).
      cbn. rewrite (ensureAudioContext_only_ctx s). reflexivity. }
    remember (handlePreview_prepare c (ensureAudioContext s)) as sp.
    unfold service_trace.
    destruct (truthy API_KEY); cbn; rewrite Hlog, <- ?app_assoc;
      eexists; (split; [reflexivity|]); cbn; tauto.
  - intros Hkey.
    specialize (Hfail ""%string Kore (mkContext 24000 running) s).
    unfold App.generateSpeech in Hfail. rewrite Hkey in Hfail.
    cbn in Hfail. congruence.
  - intros Hkey.
    specialize (Hfail ""%string Kore (mkContext 24000 running) s).
    unfold App.generateSpeech in Hfail. rewrite Hkey in Hfail. cbn [negb] in Hfail.
    destruct reply as [reason|[data|]]; cbn in Hfail; try congruence.
    intros Hdata. rewrite Hdata in Hfail. cbn in Hfail. congruence.
Qed.

End Handlers.

(** *** One source node at a time *)

Lemma quiet_one_source (s : State) : quiet s -> one_source s.
Proof. intros H i n Hi Hp. destruct (H i n Hi Hp). Qed.

Lemma one_source_None_quiet (s : State) :
  one_source s -> sourceNodeRef s = None -> quiet s.
Proof. intros H Hr i n Hi Hp. specialize (H i n Hi Hp). congruence. Qed.

(** Stopping the node the ref holds leaves no node playing. *)
Lemma stop_quiet (i : nat) (s : State) :
  one_source s -> sourceNodeRef s = Some i -> quiet (stop i s).
Proof.
  intros H Hr j n Hj Hp.
  destruct (decide (i = j)) as [<-|Hne].
  - exact (stop_not_playing i s n Hj Hp).
  - assert (Hold : nodes s !! j = Some n).
    { revert Hj. unfold stop. destruct (nodes s !! i); cbn [nodes setNodes];
        [rewrite list_lookup_insert_ne by exact Hne|]; auto. }
    specialize (H j n Hold Hp). congruence.
Qed.

Lemma stopAudio_quiet (s : State) : one_source s -> quiet (stopAudio s).
Proof.
  intros H. unfold stopAudio.
  destruct (sourceNodeRef s) as [i|] eqn:Hr.
  - exact (stop_quiet i s H Hr).
  - exact (one_source_None_quiet s H Hr).
Qed.

(** What [playAudio] does to the nodes when it has a context and an
    analyser: the node of the ref, if any, is stopped, and a playing
    node is added at the end. *)
Lemma playAudio_nodes (b : AudioBuffer) (cb : endedCallback) (s : State) :
  audioContextRef s <> None -> analyserRef s <> None ->
  let stopped := match sourceNodeRef s with Some i => stop i s | None => s end in
  nodes (playAudio b cb s) = nodes stopped ++ [mkSource b cb Playing] /\
  sourceNodeRef (playAudio b cb s) = Some (List.length (nodes stopped)) /\
  List.length (nodes stopped) = List.length (nodes s).
Proof.
  intros Hc Ha. unfold playAudio.
  destruct (audioContextRef s); [|congruence].
  destruct (analyserRef s); [|congruence].
  cbv zeta. destruct (sourceNodeRef s) as [i|]; cbn; repeat split.
  unfold stop. destruct (nodes s !! i); cbn; [apply length_insert | reflexivity].
Qed.

Lemma snoc_one_source (s s' : State) (n : SourceNode) :
  quiet s -> nodes s' = nodes s ++ [n] ->
  sourceNodeRef s' = Some (List.length (nodes s)) -> one_source s'.
Proof.
  intros Hq Hn Hr i m Hi Hp. rewrite Hn in Hi.
  apply lookup_snoc_Some in Hi as [[_ Hi]|[-> _]].
  - destruct (Hq i m Hi Hp).
  - exact Hr.
Qed.

Lemma playAudio_one_source (b : AudioBuffer) (cb : endedCallback) (s : State) :
  one_source s -> one_source (playAudio b cb s).
Proof.
  intros H.
  destruct (audioContextRef s) as [ctx|] eqn:Hc;
    [|unfold playAudio; rewrite Hc; exact H].
  destruct (analyserRef s) as [an|] eqn:Ha;
    [|unfold playAudio; rewrite Hc, Ha; exact H].
  destruct (playAudio_nodes b cb s) as (Hn & Hr & _); [congruence..|].
  cbv zeta in Hn, Hr.
  eapply snoc_one_source; [|exact Hn|exact Hr].
  destruct (sourceNodeRef s) as [i|] eqn:Es.
  - exact (stop_quiet i s H Es).
  - exact (one_source_None_quiet s H Es).
Qed.

Lemma ended_one_source (i : nat) (s : State) :
  one_source s -> one_source (ended i s).
Proof.
  intros H. unfold ended.
  destruct (nodes s !! i) as [n|] eqn:En; [|exact H].
  assert (Hset : one_source
            (setNodes (<[i := mkSource (buffer n) (onended n) Ended]> (nodes s)) s)).
  { intros j m Hj Hp. cbn in Hj |- *.
    apply list_lookup_insert_Some in Hj as [(_ & <- & _)|[_ Hj]].
    - discriminate Hp.
    - exact (H j m Hj Hp). }
  destruct (status n);
    [destruct (onended n); exact Hset | destruct (onended n); exact Hset | exact H].
Qed.

Lemma filter_none (P : nat -> bool) (l : list nat) :
  (forall i, In i l -> P i = false) -> List.filter P l = [].
Proof.
  induction l as [|a l IH]; intros H; simpl; [reflexivity|].
  rewrite (H a) by (left; reflexivity).
  apply IH. intros i Hi. apply H. right. exact Hi.
Qed.

(** At most one of the indices of a list without repetition passes a
    test that only [j] can pass. *)
Lemma filter_at_most_one (P : nat -> bool) (j : nat) (l : list nat) :
  List.NoDup l -> (forall i, In i l -> P i = true -> i = j) ->
  List.length (List.filter P l) <= 1.
Proof.
  intros Hnd Hj. induction Hnd as [|a l Ha Hnd IH]; simpl; [lia|].
  destruct (P a) eqn:Pa.
  - assert (Hnone : List.filter P l = []).
    { apply filter_none. intros i Hi.
      destruct (P i) eqn:Pi; [|reflexivity].
      assert (i = j) by (apply Hj; [right; exact Hi | exact Pi]).
      assert (a = j) by (apply Hj; [left; reflexivity | exact Pa]).
      subst. contradiction. }
    rewrite Hnone. simpl. lia.
  - apply IH. intros i Hi. apply Hj. right. exact Hi.
Qed.

Lemma playing_spec (s : State) (i : nat) :
  In i (playing s) <-> exists n, nodes s !! i = Some n /\ status n = Playing.
Proof.
  unfold playing. rewrite List.filter_In, in_seq.
  destruct (nodes s !! i) as [n|] eqn:E.
  - apply lookup_lt_Some in E as Hlt. split.
    + intros [_ Hp]. exists n. split; [reflexivity|].
      destruct (status n); [reflexivity | discriminate Hp..].
    + intros (m & [= <-] & Hm). rewrite Hm. split; [lia | reflexivity].
  - split; [intros [_ Hp]; discriminate Hp | intros (m & Hm & _); discriminate Hm].
Qed.

Lemma one_source_playing (s : State) :
  one_source s -> List.length (playing s) <= 1.
Proof.
  intros H.
  destruct (sourceNodeRef s) as [j|] eqn:Hr.
  - unfold playing. apply (filter_at_most_one _ j); [apply List.seq_NoDup|].
    intros i Hi Hp.
    assert (Hin : In i (playing s)) by (unfold playing; apply List.filter_In; auto).
    apply playing_spec in Hin as (n & Hn & Hs).
    specialize (H i n Hn Hs). congruence.
  - destruct (playing s) as [|i l] eqn:E; [simpl; lia|].
    assert (Hin : In i (playing s)) by (rewrite E; left; reflexivity).
    apply playing_spec in Hin as (n & Hn & Hs).
    specialize (H i n Hn Hs). congruence.
Qed.

Lemma playing_snoc (s s' : State) (n : SourceNode) :
  quiet s -> nodes s' = nodes s ++ [n] -> status n = Playing ->
  playing s' = [List.length (nodes s)].
Proof.
  intros Hq Hn Hp. unfold playing.
  rewrite Hn, length_app. cbn [List.length].
  rewrite Nat.add_1_r, seq_S, List.filter_app. cbn [List.filter Nat.add].
  rewrite filter_none.
  - rewrite lookup_app_r by lia. rewrite Nat.sub_diag. cbn. rewrite Hp. reflexivity.
  - intros i Hi. apply in_seq in Hi.
    rewrite lookup_app_l by lia.
    destruct (nodes s !! i) as [m|] eqn:E; [|reflexivity].
    specialize (Hq i m E). destruct (status m); congruence.
Qed.

(** *** Pieces that leave the nodes or the object URLs alone *)



Lemma playAudio_only_audio (b : AudioBuffer) (cb : endedCallback) (s : State) :
  playAudio b cb s
  = setSourceNodeRef (sourceNodeRef (playAudio b cb s))
      (setNodes (nodes (playAudio b cb s)) s).
Proof.
  unfold playAudio.
  destruct (audioContextRef s), (analyserRef s); try (destruct s; reflexivity).
  cbv zeta. destruct (sourceNodeRef s) as [i|]; [|reflexivity].
  rewrite (stop_only_nodes i s). reflexivity.
Qed.



Section Invariants.

Variable API_KEY : string.
Variable pcm16 : Q -> Z.
Variable decodeBase64 : string -> option (list byte).
Variable decodeSamples : list byte -> nat -> nat * (nat -> nat -> Q).

Abbreviation generateSpeech' := (generateSpeech API_KEY decodeBase64 decodeSamples).
Abbreviation step' := (step API_KEY pcm16 decodeBase64 decodeSamples).
Abbreviation reachable' := (reachable API_KEY pcm16 decodeBase64 decodeSamples).

(** The service touches the trace only. *)
Lemma generateSpeech_only_log (text : string) (voice : VoiceName)
    (ctx : AudioContext) (reply : ApiReply) (s : State) :
  exists trace,
    fst (generateSpeech' text voice ctx reply s)
    = fold_left (fun s x => emit x s) trace s.
Proof.
  destruct (snd (generateSpeech' text voice ctx reply s)) as [e|b] eqn:E.
  - eexists. apply (generateSpeech_throws _ _ _ _ _ _ _ _ _ E).
  - exists [ApiRequest text voice].
    apply (generateSpeech_returns _ _ _ _ _ _ _ _ _ E).
Qed.

Lemma emits_one_source (trace : list effect) (s : State) :
  one_source s -> one_source (fold_left (fun s x => emit x s) trace s).
Proof.
  revert s. induction trace as [|x trace IH]; intros s H; [exact H|].
  apply IH. exact H.
Qed.


Lemma ensureAudioContext_one_source (s : State) :
  one_source s -> one_source (ensureAudioContext s).
Proof. intros H. rewrite (ensureAudioContext_only_ctx s). exact H. Qed.


Lemma step_one_source (s s' : State) :
  step' s s' -> one_source s -> one_source s'.
Proof.
  intros Hstep H. destruct Hstep.
  - exact H.
  - exact H.
  - exact H.
  - apply quiet_one_source. unfold handleClear. apply stopAudio_quiet. exact H.
  - apply ended_one_source. exact H.
  - unfold handleGenerate_enter.
    destruct (audioContextRef s); [|exact H].
    destruct (negb (truthy (trim (text s)))); [exact H|].
    destruct (MAX_CHARS <? String.length (text s)); [exact H|].
    destruct (find _ VOICE_OPTIONS); [|exact H].
    apply ensureAudioContext_one_source. exact H.
  - apply quiet_one_source. unfold handleGenerate_prepare. apply stopAudio_quiet.
    destruct (g_downloadUrl c); exact H.
  - unfold App.handleGenerate_finish.
    destruct (generateSpeech_only_log (g_text c) (apiVoice (g_option c)) (g_ctx c)
                reply s) as [trace Ht].
    destruct (App.generateSpeech _ _ _ _ _ _ _ s) as [s2 r]. cbn [fst] in Ht. subst s2.
    pose proof (emits_one_source trace s H) as H2.
    destruct r as [e|b]; [exact H2|].
    cbn. apply playAudio_one_source. exact H2.
  - unfold handlePreview_enter.
    destruct (audioContextRef s); [|exact H].
    destruct (previewVoiceId s) as [[|]|]; try exact H;
      apply ensureAudioContext_one_source; exact H.
  - apply quiet_one_source. unfold handlePreview_prepare. apply stopAudio_quiet.
    exact H.
  - unfold App.handlePreview_finish.
    match goal with
    | |- context [App.generateSpeech _ _ _ ?t ?v ?x ?r ?st] =>
        destruct (generateSpeech_only_log t v x r st) as [trace Ht];
        destruct (App.generateSpeech API_KEY decodeBase64 decodeSamples t v x r st)
          as [s2 res]
    end.
    cbn [fst] in Ht. subst s2.
    pose proof (emits_one_source trace s H) as H2.
    destruct res as [e|b]; [exact H2|].
    apply playAudio_one_source. exact H2.
Qed.

Lemma reachable_one_source (s : State) : reachable' s -> one_source s.
Proof.
  induction 1 as [|s s' _ IH Hstep].
  - intros i n Hi. cbn in Hi. discriminate Hi.
  - exact (step_one_source s s' Hstep IH).
Qed.

(** C6.  In every state the application reaches, whatever the
    interleaving of its handlers, a source node that plays is the one
    [sourceNodeRef] holds, so at most one plays.  [playAudio], which
    alone starts source nodes, first stops the node the ref holds: after
    it the new node is the only one playing. *)
Theorem one_source_at_a_time (s : State) (Hs : reachable' s) :
  one_source s /\
  List.length (playing s) <= 1 /\
  quiet (stopAudio s) /\
  (forall b onEnded,
      let s' := playAudio b onEnded s in
      List.length (playing s') <= 1 /\
      (audioContextRef s = None \/ analyserRef s = None -> s' = s) /\
      (audioContextRef s <> None -> analyserRef s <> None ->
       playing s' = [List.length (nodes s)] /\
       sourceNodeRef s' = Some (List.length (nodes s)))).
Proof.
  pose proof (reachable_one_source s Hs) as H.
  split; [exact H|]. split; [exact (one_source_playing s H)|].
  split; [exact (stopAudio_quiet s H)|].
  intros b onEnded. cbv zeta.
  split; [exact (one_source_playing _ (playAudio_one_source b onEnded s H))|].
  split.
  - unfold playAudio. intros [-> | Ha]; [reflexivity|].
    rewrite Ha. destruct (audioContextRef s); reflexivity.
  - intros Hc Ha.
    destruct (playAudio_nodes b onEnded s Hc Ha) as (Hn & Hr & Hlen).
    cbv zeta in Hn, Hr, Hlen. rewrite <- Hlen. split; [|exact Hr].
    eapply playing_snoc; [|exact Hn|reflexivity].
    destruct (sourceNodeRef s) as [i|] eqn:Es.
    + exact (stop_quiet i s H Es).
    + exact (one_source_None_quiet s H Es).
Qed.

(** *** The object URLs *)



Lemma handleGenerate_finish_returns (c : GenerateClosure) (reply : ApiReply)
    (s : State) (b : AudioBuffer) :
  snd (generateSpeech' (g_text c) (apiVoice (g_option c)) (g_ctx c) reply s) = inr b ->
  let s' := App.handleGenerate_finish API_KEY pcm16 decodeBase64 decodeSamples c reply s in
  audioBuffer s' = Some b /\
  downloadUrl s' = Some (nextUrl s) /\
  blobs s' = <[nextUrl s := audioBufferToWav pcm16 b]> (blobs s) /\
  isLoading s' = false /\
  log s' = log s ++ [ApiRequest (g_text c) (apiVoice (g_option c));
                     CreateObjectURL (nextUrl s)].
Proof.
  intros Hb. cbv zeta. unfold App.handleGenerate_finish.
  destruct (generateSpeech_returns _ _ _ _ _ _ _ _ _ Hb) as (Hst & _).
  destruct (App.generateSpeech _ _ _ _ _ _ _ s) as [s2 r].
  cbn [fst snd] in *. subst. unfold createObjectURL.
  match goal with |- context [playAudio ?b ?cb ?x] =>
    rewrite (playAudio_only_audio b cb x)
  end.
  repeat split. cbn. rewrite <- app_assoc. reflexivity.
Qed.




End Invariants.

(** *** The handlers on the sample states *)

Abbreviation run_generate :=
  (handleGenerate "key" pcm16_usual Samples.decode_bytes Samples.decode_pcm16).
Abbreviation run_preview :=
  (handlePreview "key" Samples.decode_bytes Samples.decode_pcm16).
Abbreviation run_speech :=
  (generateSpeech "key" Samples.decode_bytes Samples.decode_pcm16).
Abbreviation run_reachable :=
  (reachable "key" pcm16_usual Samples.decode_bytes Samples.decode_pcm16).

(** After the sample generation: a buffer of two frames, one object URL
    holding a 48-byte file, and the one source node playing. *)
Example generated_state :
  option_map frames (audioBuffer Samples.generated) = Some 2 /\
  downloadUrl Samples.generated = Some 0 /\
  option_map (@List.length byte) (blobs Samples.generated !! 0) = Some 48 /\
  playing Samples.generated = [0] /\
  sourceNodeRef Samples.generated = Some 0 /\
  isPlaying Samples.generated = true /\
  isLoading Samples.generated = false /\
  log Samples.generated = [ApiRequest DEFAULT_TEXT Charon; CreateObjectURL 0].
Proof. vm_compute. repeat split. Qed.

Lemma mounted_reachable : run_reachable Samples.mounted.
Proof. exact (reachable_step _ _ _ _ _ _ (reachable_initial _ _ _ _) (step_mount _ _ _ _ _)). Defined.

Lemma generated_reachable : run_reachable Samples.generated.
Proof.
  pose (c := mkGenerate DEFAULT_TEXT Samples.mike None (mkContext 24000 suspended)).
  change Samples.generated with
    (handleGenerate_finish "key" pcm16_usual Samples.decode_bytes Samples.decode_pcm16
       c (Responded (Some "abcd"%string))
       (handleGenerate_prepare c (fst (handleGenerate_enter Samples.mounted)))).
  eapply reachable_step; [|apply step_generate_finish].
  eapply reachable_step; [|apply step_generate_prepare].
  eapply reachable_step; [|apply step_generate_enter].
  exact mounted_reachable.
Defined.

Lemma handleGenerate_refuses_witness :
  run_generate (Rejected "offline") (setText "  " Samples.mounted)
  = setText "  " Samples.mounted /\
  run_generate (Rejected "offline") (setText Samples.long_text Samples.generated)
  = alert "Character limit exceeded. Please reduce to 5000 characters."
          (setText Samples.long_text Samples.generated).
Proof.
  split.
  - apply (proj1 (handleGenerate_refuses "key" pcm16_usual Samples.decode_bytes
                    Samples.decode_pcm16 (Rejected "offline")
                    (setText "  " Samples.mounted))).
    reflexivity.
  - apply (proj2 (handleGenerate_refuses "key" pcm16_usual Samples.decode_bytes
                    Samples.decode_pcm16 (Rejected "offline")
                    (setText Samples.long_text Samples.generated))).
    + apply Nat.ltb_lt. vm_compute. reflexivity.
    + vm_compute. reflexivity.
    + vm_compute. discriminate.
Defined.

(** A script of 5001 blanks is turned away as a blank one: no alert. *)
Example long_blank_refused :
  run_generate (Rejected "offline") (setText Samples.long_blank Samples.mounted)
  = setText Samples.long_blank Samples.mounted.
Proof. vm_compute. reflexivity. Qed.

Lemma offline_fails (text : string) (voice : VoiceName) (ctx : AudioContext)
    (s0 : State) :
  snd (run_speech text voice ctx (Rejected "offline") s0)
  = inl (RequestFailed "offline").
Proof. reflexivity. Defined.

Lemma failed_generation_witness :
  audioBuffer Samples.generated <> None /\
  downloadUrl Samples.generated = Some 0 /\
  audioBuffer (run_generate (Rejected "offline") Samples.generated) = None /\
  downloadUrl (run_generate (Rejected "offline") Samples.generated) = None /\
  blobs (run_generate (Rejected "offline") Samples.generated) !! 0 = None.
Proof.
  split; [vm_compute; discriminate|]. split; [reflexivity|].
  pose proof (failed_generation_loses_audio "key" pcm16_usual Samples.decode_bytes
                Samples.decode_pcm16 (Rejected "offline") Samples.generated
                (ensureAudioContext Samples.generated)
                (mkGenerate DEFAULT_TEXT Samples.mike (Some 0)
                            (mkContext 24000 running))
                (RequestFailed "offline") eq_refl eq_refl) as H.
  cbv zeta in H. destruct H as (Ha & Hd & Hb & _).
  split; [exact Ha|]. split; [exact Hd|]. apply Hb. reflexivity.
Defined.

Lemma failure_reporting_witness :
  (forall text voice ctx s0,
      snd (run_speech text voice ctx (Rejected "offline") s0)
      = inl (RequestFailed "offline")) /\
  exists trace,
    log (run_generate (Rejected "offline") Samples.mounted)
    = log Samples.mounted ++ trace /\
    List.filter is_alert trace = [Alert "Generation failed. Please try again."].
Proof.
  split; [exact offline_fails|].
  apply (proj1 (failure_reporting "key" pcm16_usual Samples.decode_bytes
                  Samples.decode_pcm16 (Rejected "offline") (RequestFailed "offline")
                  offline_fails Samples.mounted)
           (ensureAudioContext Samples.mounted)
           (mkGenerate DEFAULT_TEXT Samples.mike None (mkContext 24000 suspended))).
  reflexivity.
Defined.

(** C2, as the specification words it, fails for previews: a preview
    whose request fails ends with the error on the console and no alert
    shown. *)
Lemma failed_preview_shows_no_alert :
  snd (run_speech "Hello, I am Mike." Charon (mkContext 24000 suspended)
         (Rejected "offline") Samples.mounted)
  = inl (RequestFailed "offline") /\
  log (run_preview Samples.mike (Rejected "offline") Samples.mounted)
  = [ApiRequest "Hello, I am Mike." Charon;
     ConsoleError (RequestFailed "offline");
     ConsoleError (RequestFailed "offline")] /\
  List.filter is_alert
    (log (run_preview Samples.mike (Rejected "offline") Samples.mounted)) = [].
Proof. vm_compute. repeat split. Qed.

Lemma one_source_at_a_time_witness :
  run_reachable Samples.generated /\
  List.length (playing Samples.generated) <= 1 /\
  playing (playAudio Samples.stereo2 clearPreview Samples.generated) = [1].
Proof.
  split; [exact generated_reachable|].
  pose proof (one_source_at_a_time "key" pcm16_usual Samples.decode_bytes
                Samples.decode_pcm16 Samples.generated generated_reachable)
    as (_ & Hone & _ & Hplay).
  split; [exact Hone|].
  destruct (Hplay Samples.stereo2 clearPreview) as (_ & _ & Hnew).
  apply Hnew; vm_compute; discriminate.
Defined.


(** The file behind the download link after the sample generation. *)
Example generated_download :
  blobs Samples.generated !! 0 =
  Some [ "R"; "I"; "F"; "F"; x28; x00; x00; x00; "W"; "A"; "V"; "E";
         "f"; "m"; "t"; " "; x10; x00; x00; x00; x01; x00; x01; x00;
         xc0; x5d; x00; x00; x80; xbb; x00; x00; x02; x00; x10; x00;
         "d"; "a"; "t"; "a"; x04; x00; x00; x00;
         x60; x62; x62; x64 ]%byte.
Proof. vm_compute. reflexivity. Qed.

End AppFacts.

(** ** More on the visualizer *)

Module RadarMore.
Import Bytes BytesFacts Radar RadarFacts.
Local Open Scope Q_scope.

(** The calls of a frame that fill a path: the glow, and the idle
    particles. *)
Definition is_fill (c : cmd) : bool :=
  match c with fill => true | _ => false end.

Lemma Q_of_byte_range (b : byte) : 0 <= Q_of_byte b <= 255.
Proof.
  unfold Q_of_byte. pose proof (Z_of_byte_range b) as [Hlo Hhi].
  change 0 with (inject_Z 0). change 255 with (inject_Z 255).
  rewrite <- !Zle_Qle. lia.
Qed.

Lemma linear_range (value : Q) :
  0 <= value <= 255 -> 0 <= value / 255 * 100 <= 100.
Proof.
  intros [Hlo Hhi].
  assert (E : value / 255 * 100 == value * 100 / 255) by field.
  rewrite E. split.
  - apply Qle_shift_div_l; [reflexivity | lra].
  - apply Qle_shift_div_r; [reflexivity | lra].
Qed.

Lemma linear_monotone (v w : Q) :
  v <= w -> v / 255 * 100 <= w / 255 * 100.
Proof.
  intros H.
  assert (Ev : v / 255 * 100 == v * (100 / 255)) by field.
  assert (Ew : w / 255 * 100 == w * (100 / 255)) by field.
  rewrite Ev, Ew. apply Qmult_le_compat_r; [exact H | discriminate].
Qed.

(** X1.  Whatever the snapshot, the stride and the bar, a spectrum bar
    is between 4 and 100 pixels long, and a larger byte never gives a
    shorter bar. *)
Theorem bar_height_bounds (dataArray : list byte) (step i : nat) :
  4 <= bar_height (spectrum_bar dataArray step i) <= 100 /\
  0 <= bar_value (spectrum_bar dataArray step i) <= 255 /\
  (forall dataArray' step' j,
      bar_value (spectrum_bar dataArray step i)
      <= bar_value (spectrum_bar dataArray' step' j) ->
      bar_height (spectrum_bar dataArray step i)
      <= bar_height (spectrum_bar dataArray' step' j)).
Proof.
  unfold spectrum_bar. cbn [bar_height bar_value].
  pose proof (Q_of_byte_range (nth (i * step) dataArray x00)) as Hv.
  pose proof (linear_range _ Hv) as [_ Hhi].
  split; [|split; [exact Hv|]].
  - split; [apply Q.le_max_l | apply Q.max_lub; [discriminate | exact Hhi]].
  - intros dataArray' step' j Hle.
    apply Q.max_le_compat; [apply Qle_refl | apply linear_monotone, Hle].
Qed.

(** X2.  With 64 bins or more every bar reads a bin of the snapshot (bar
    [i] the bin [i * floor(n/64)], never beyond the array); with fewer
    the stride is 0 and all 64 bars show the first bin. *)
Theorem bars_sample_in_range (a : AnalyserNode) :
  let n := frequencyBinCount a in
  let step := Nat.div n 64 in
  (64 <= n ->
   forall i, i < 64 ->
     i * step < n /\
     exists v, freqData a !! (i * step)%nat = Some v /\
               bar_value (spectrum_bar (freqData a) step i) = Q_of_byte v)%nat /\
  (n < 64 ->
   forall i, i < 64 ->
     bar_value (spectrum_bar (freqData a) step i)
     = bar_value (spectrum_bar (freqData a) step 0) /\
     bar_height (spectrum_bar (freqData a) step i)
     = bar_height (spectrum_bar (freqData a) step 0))%nat.
Proof.
  cbv zeta. split.
  - intros Hn i Hi.
    assert (Hstep : (64 * Nat.div (frequencyBinCount a) 64 <= frequencyBinCount a)%nat)
      by (apply Nat.Div0.mul_div_le).
    assert (Hpos : (1 <= Nat.div (frequencyBinCount a) 64)%nat)
      by (apply Nat.div_le_lower_bound; lia).
    assert (Hlt : (i * Nat.div (frequencyBinCount a) 64 < frequencyBinCount a)%nat) by nia.
    split; [exact Hlt|].
    destruct (lookup_lt_is_Some_2 (freqData a) _ Hlt) as [v Hv].
    exists v. split; [exact Hv|].
    unfold spectrum_bar. cbn [bar_value]. rewrite (nth_lookup_Some _ _ x00 _ Hv).
    reflexivity.
  - intros Hn i Hi. rewrite (Nat.div_small _ 64 Hn).
    unfold spectrum_bar. cbn [bar_value bar_height].
    rewrite Nat.mul_0_r. split; reflexivity.
Qed.

Lemma sum_bytes_range (l : list byte) :
  (0 <= fold_right Z.add 0 (map Z_of_byte l) <= 255 * Z.of_nat (List.length l))%Z.
Proof.
  induction l as [|b l IH]; simpl map; simpl fold_right; cbn [List.length]; [lia|].
  pose proof (Z_of_byte_range b). lia.
Qed.

(** The bass average of a snapshot lies between 0 and 255. *)
Lemma bass_mean_range (snapshot : list byte) (avg : Q) :
  bass_mean snapshot = Some avg -> 0 <= avg <= 255.
Proof.
  unfold bass_mean, js_div. cbv zeta.
  set (k := Nat.div (List.length snapshot) 4).
  destruct (Qeq_bool (inject_Z (Z.of_nat k)) 0) eqn:E; [discriminate|].
  intros [= <-].
  assert (Hk : (0 < Z.of_nat k)%Z).
  { destruct k; [discriminate E | lia]. }
  pose proof (sum_bytes_range (firstn k snapshot)) as [Hlo Hhi].
  assert (Hlen : (List.length (firstn k snapshot) <= k)%nat)
    by (rewrite length_firstn; lia).
  assert (HkQ : 0 < inject_Z (Z.of_nat k))
    by (change 0 with (inject_Z 0); rewrite <- Zlt_Qlt; exact Hk).
  split.
  - apply Qle_shift_div_l; [exact HkQ|]. rewrite Qmult_0_l.
    change 0 with (inject_Z 0). rewrite <- Zle_Qle. exact Hlo.
  - apply Qle_shift_div_r; [exact HkQ|].
    change 255 with (inject_Z 255). rewrite <- inject_Z_mult, <- Zle_Qle. nia.
Qed.

(** X3.  A pulse radius, when the frame has one, is at least the base
    radius 70 and at most 155 (the bass average being a mean of bytes),
    so the inner circle, drawn at the radius less 5, never gets a
    negative radius; an idle frame stays within 80. *)
Theorem radius_bounds (Math_sin : Q -> Q)
    (Hsin : forall x, -1 <= Math_sin x <= 1)
    (isPlaying : bool) (analyser : option AnalyserNode) (now : nat -> Z) (r : Q)
    (Hr : visualRadius Math_sin isPlaying analyser now = Some r) :
  70 <= r <= 155 /\ 65 <= r - 5 /\ (isPlaying = false -> r <= 80).
Proof.
  unfold visualRadius, pulse in Hr. destruct isPlaying; cbn [fst] in Hr.
  - assert (Havg : exists avg, snd (audio_data analyser) = Some avg /\ 0 <= avg <= 255).
    { destruct analyser as [a|].
      - rewrite average_eq in Hr |- *.
        destruct (bass_mean (freqData a)) as [avg|] eqn:E; [|discriminate Hr].
        exists avg. split; [reflexivity | exact (bass_mean_range _ _ E)].
      - exists 0. split; [reflexivity | split; discriminate]. }
    destruct Havg as (avg & Ha & Hlo & Hhi). rewrite Ha in Hr.
    cbn [option_map] in Hr. injection Hr as <-. unfold baseRadius.
    assert (E : avg / 3 == avg * (1 # 3)) by field.
    rewrite E. repeat split; try lra; try discriminate.
  - cbn [option_map] in Hr. injection Hr as <-. unfold baseRadius.
    destruct (Hsin (inject_Z (now O) / 1500)) as [Hlo Hhi].
    repeat split; try lra; try (intros _; lra).
Qed.

Lemma radius_bounds_witness :
  visualRadius Samples.sin_approx true (Some Samples.hum) (Samples.clock_at 0)
  = Some (70 + (1185 # 32) / 3) /\
  70 <= 70 + (1185 # 32) / 3 <= 155.
Proof.
  split; [reflexivity|].
  apply (radius_bounds Samples.sin_approx sin_approx_range true (Some Samples.hum)
           (Samples.clock_at 0) (70 + (1185 # 32) / 3) eq_refl).
Defined.

Section Outcome.

Variables Math_sin Math_cos : Q -> Q.

Lemma quarter_zero (n : nat) :
  Qeq_bool (inject_Z (Z.of_nat (Nat.div n 4))) 0 = true <-> (n < 4)%nat.
Proof.
  split.
  - intros E. apply Qeq_bool_eq in E. unfold Qeq in E.
    cbn [Qnum Qden inject_Z] in E.
    assert (Nat.div n 4 = 0)%nat by lia.
    apply Nat.div_small_iff in H; lia.
  - intros H. rewrite (Nat.div_small n 4 H). reflexivity.
Qed.

(** X4.  A frame stops short (at the radial gradient, without
    scheduling the next frame) exactly when it is drawn while playing
    with an analyser of fewer than four bins, where the bass average is
    0/0; every other frame completes, takes a new frame handle and
    keeps the animation going. *)
Theorem frame_throws_iff (st : VisState) (canvas : Canvas) (isPlaying : bool)
    (analyser : option AnalyserNode) (now : nat -> Z) :
  (snd (draw Math_sin Math_cos canvas isPlaying analyser now) = Thrown <->
   isPlaying = true /\
   exists a, analyser = Some a /\ (frequencyBinCount a < 4)%nat) /\
  (snd (draw Math_sin Math_cos canvas isPlaying analyser now) = Thrown ->
   frame Math_sin Math_cos st canvas isPlaying analyser now
   = (st, draw_setup (inject_Z (width canvas)) (inject_Z (height canvas)))) /\
  (snd (draw Math_sin Math_cos canvas isPlaying analyser now) = Scheduled ->
   fst (frame Math_sin Math_cos st canvas isPlaying analyser now)
   = mkVis (Some (nextHandle st)) (nextHandle st + 1)%Z).
Proof.
  split; [|split].
  - unfold draw, pulse, audio_data.
    destruct analyser as [a|]; destruct isPlaying; cbv zeta; cbn [option_map snd].
    + unfold js_div.
      destruct (Qeq_bool (inject_Z (Z.of_nat (Nat.div (frequencyBinCount a) 4))) 0)
        eqn:E; cbn [option_map snd].
      * split; [intros _|reflexivity]. split; [reflexivity|].
        exists a. split; [reflexivity | apply quarter_zero, E].
      * split; [discriminate|]. intros (_ & a' & [= <-] & Hlt).
        apply quarter_zero in Hlt. congruence.
    + split; [discriminate | intros [[=] _]].
    + split; [discriminate | intros (_ & a & [=] & _)].
    + split; [discriminate | intros [[=] _]].
  - unfold frame, draw.
    destruct (audio_data analyser) as [dataArray average].
    destruct (pulse Math_sin isPlaying average now) as [[p|] reads]; cbn [snd];
      [discriminate | reflexivity].
  - unfold frame.
    destruct (draw Math_sin Math_cos canvas isPlaying analyser now) as [calls []];
      cbn [snd fst]; [reflexivity | discriminate].
Qed.

Lemma bars_drawn_particles (centerX centerY r time : Q) (l : list nat) :
  bars_drawn (flat_map (draw_particle Math_sin Math_cos centerX centerY r time) l)
  = O.
Proof.
  unfold bars_drawn. induction l as [|i l IH]; simpl; [reflexivity | exact IH].
Qed.

Lemma fills_particles (centerX centerY r time : Q) (l : list nat) :
  List.length (List.filter is_fill
    (flat_map (draw_particle Math_sin Math_cos centerX centerY r time) l))
  = List.length l.
Proof.
  induction l as [|i l IH]; simpl; [reflexivity | now rewrite IH].
Qed.

(** X5.  A frame drawn while idle, or without an analyser, always
    completes, draws no spectrum bar and draws the eight idle particles
    (nine fills with the glow); without an analyser the playing frame
    pulses at the base radius 70. *)
Theorem idle_frame (canvas : Canvas) (isPlaying : bool)
    (analyser : option AnalyserNode) (now : nat -> Z)
    (Hidle : isPlaying = false \/ analyser = None) :
  let calls := fst (draw Math_sin Math_cos canvas isPlaying analyser now) in
  snd (draw Math_sin Math_cos canvas isPlaying analyser now) = Scheduled /\
  bars_drawn calls = O /\
  List.length (List.filter is_fill calls) = 9%nat /\
  (exists r reads,
      visualRadius Math_sin isPlaying analyser now = Some r /\
      calls = draw_setup (inject_Z (width canvas)) (inject_Z (height canvas))
              ++ draw_core (inject_Z (width canvas) / 2) (inject_Z (height canvas) / 2) r
              ++ draw_idle Math_sin Math_cos (inject_Z (width canvas) / 2)
                   (inject_Z (height canvas) / 2) r (now reads)) /\
  (isPlaying = true ->
   visualRadius Math_sin isPlaying analyser now = Some (70 + 0 / 3)).
Proof.
  cbv zeta.
  assert (Hshape : exists r reads,
      visualRadius Math_sin isPlaying analyser now = Some r /\
      draw Math_sin Math_cos canvas isPlaying analyser now
      = (draw_setup (inject_Z (width canvas)) (inject_Z (height canvas))
         ++ draw_core (inject_Z (width canvas) / 2) (inject_Z (height canvas) / 2) r
         ++ draw_idle Math_sin Math_cos (inject_Z (width canvas) / 2)
              (inject_Z (height canvas) / 2) r (now reads), Scheduled)).
  { unfold visualRadius, draw, pulse.
    destruct Hidle as [-> | ->].
    - destruct (audio_data analyser) as [dataArray average]. cbn [fst snd option_map].
      eexists. exists 1%nat. split; [reflexivity|]. destruct analyser; reflexivity.
    - cbn [audio_data fst snd]. destruct isPlaying; cbn [fst snd option_map];
        eexists; eexists; split; reflexivity. }
  destruct Hshape as (r & reads & Hr & Hdraw). rewrite Hdraw. cbn [fst snd].
  split; [reflexivity|]. split; [|split; [|split]].
  - unfold bars_drawn, draw_idle. cbv zeta.
    rewrite !List.filter_app, !length_app. cbn [List.filter is_lineTo draw_setup draw_core List.length].
    apply bars_drawn_particles.
  - unfold draw_idle. cbv zeta.
    rewrite !List.filter_app, !length_app.
    cbn [List.filter is_fill draw_setup draw_core List.length Nat.add].
    rewrite fills_particles. reflexivity.
  - exists r, reads. split; [exact Hr | reflexivity].
  - intros ->. destruct Hidle as [[=] | ->]. reflexivity.
Qed.

End Outcome.

Lemma idle_frame_witness :
  bars_drawn (fst (draw Samples.sin_approx Samples.cos_approx Samples.canvas400
                        false (Some Samples.hum) (Samples.clock_at 5))) = O.
Proof.
  apply (idle_frame Samples.sin_approx Samples.cos_approx Samples.canvas400 false
           (Some Samples.hum) (Samples.clock_at 5) (or_introl eq_refl)).
Defined.

End RadarMore.

(** ** More on the application *)

Module AppMore.
Import Bytes BytesFacts Wav WavFacts App AppFacts View.
Local Open Scope nat_scope.

Local Arguments audioBufferToWav : simpl never.

Section Service.

Variable API_KEY : string.
Variable pcm16 : Q -> Z.
Variable decodeBase64 : string -> option (list byte).
Variable decodeSamples : list byte -> nat -> nat * (nat -> nat -> Q).

Abbreviation speech := (generateSpeech API_KEY decodeBase64 decodeSamples).
Abbreviation generate := (handleGenerate API_KEY pcm16 decodeBase64 decodeSamples).
Abbreviation generate_finish :=
  (handleGenerate_finish API_KEY pcm16 decodeBase64 decodeSamples).
Abbreviation preview := (handlePreview API_KEY decodeBase64 decodeSamples).
Abbreviation preview_finish :=
  (handlePreview_finish API_KEY decodeBase64 decodeSamples).
Abbreviation steps := (step API_KEY pcm16 decodeBase64 decodeSamples).
Abbreviation reached := (reachable API_KEY pcm16 decodeBase64 decodeSamples).

(** *** Each piece, by the fields it writes *)

Lemma emits_eq (trace : list effect) (s : State) :
  fold_left (fun s x => emit x s) trace s
  = mkState (text s) (selectedVoiceId s) (isLoading s) (isPlaying s)
      (previewVoiceId s) (audioBuffer s) (downloadUrl s) (audioContextRef s)
      (sourceNodeRef s) (analyserRef s) (nodes s) (blobs s) (nextUrl s)
      (log s ++ trace).
Proof.
  revert s. induction trace as [|x trace IH]; intros s; cbn [fold_left].
  - rewrite app_nil_r. destruct s; reflexivity.
  - rewrite IH. cbn. rewrite <- app_assoc. reflexivity.
Qed.

Lemma speech_only_log (text : string) (voice : VoiceName) (ctx : AudioContext)
    (reply : ApiReply) (s : State) :
  exists trace,
    fst (speech text voice ctx reply s)
    = mkState (App.text s) (selectedVoiceId s) (isLoading s) (isPlaying s)
        (previewVoiceId s) (audioBuffer s) (downloadUrl s) (audioContextRef s)
        (sourceNodeRef s) (analyserRef s) (nodes s) (blobs s) (nextUrl s)
        (log s ++ trace).
Proof.
  destruct (generateSpeech_only_log API_KEY decodeBase64 decodeSamples
              text voice ctx reply s) as [trace Ht].
  exists trace. rewrite Ht. apply emits_eq.
Qed.

Lemma stopAudio_only (s : State) :
  stopAudio s
  = setPreviewVoiceId None
      (setIsPlaying false
         (setSourceNodeRef None (setNodes (nodes (stopAudio s)) s))).
Proof.
  unfold stopAudio. destruct (sourceNodeRef s) as [i|] eqn:E.
  - rewrite (stop_only_nodes i s). reflexivity.
  - destruct s. cbn in *. subst. reflexivity.
Qed.

Lemma ended_only (i : nat) (s : State) :
  ended i s
  = setPreviewVoiceId (previewVoiceId (ended i s))
      (setIsPlaying (isPlaying (ended i s)) (setNodes (nodes (ended i s)) s)).
Proof. unfold ended. destruct s. branches. Qed.

Lemma ended_marker (i : nat) (s : State) :
  previewVoiceId s = None -> previewVoiceId (ended i s) = None.
Proof. intros H. unfold ended. branches; cbn; exact H. Qed.

Lemma stop_length (i : nat) (s : State) :
  List.length (nodes (stop i s)) = List.length (nodes s).
Proof.
  unfold stop. destruct (nodes s !! i); cbn; [apply length_insert | reflexivity].
Qed.

Lemma stopAudio_length (s : State) :
  List.length (nodes (stopAudio s)) = List.length (nodes s).
Proof.
  unfold stopAudio. destruct (sourceNodeRef s); cbn; [apply stop_length | reflexivity].
Qed.

(** The success branch of [handleGenerate_finish], spelt out. *)
Lemma generate_finish_success (c : GenerateClosure) (reply : ApiReply)
    (s : State) (b : AudioBuffer) :
  snd (speech (g_text c) (apiVoice (g_option c)) (g_ctx c) reply s) = inr b ->
  generate_finish c reply s
  = setIsLoading false
      (setIsPlaying true
         (playAudio b clearPlaying
            (setDownloadUrl (Some (nextUrl s))
               (emit (CreateObjectURL (nextUrl s))
                  (setBlobs (<[nextUrl s := audioBufferToWav pcm16 b]> (blobs s))
                     (S (nextUrl s))
                     (setAudioBuffer (Some b)
                        (emit (ApiRequest (g_text c) (apiVoice (g_option c))) s))))))).
Proof.
  intros Hb. unfold App.handleGenerate_finish.
  destruct (generateSpeech_returns _ _ _ _ _ _ _ _ _ Hb) as (Hst & _).
  destruct (App.generateSpeech _ _ _ _ _ _ _ s) as [s2 r].
  cbn [fst snd] in *. subst. reflexivity.
Qed.

Lemma preview_finish_success (c : PreviewClosure) (reply : ApiReply)
    (s : State) (b : AudioBuffer) :
  snd (speech ("Hello, I am " ++ displayName (p_voice c) ++ ".")
         (apiVoice (p_voice c)) (p_ctx c) reply s) = inr b ->
  preview_finish c reply s
  = playAudio b clearPreview
      (emit (ApiRequest ("Hello, I am " ++ displayName (p_voice c) ++ ".")
                        (apiVoice (p_voice c))) s).
Proof.
  intros Hb. unfold App.handlePreview_finish. cbv zeta.
  destruct (generateSpeech_returns _ _ _ _ _ _ _ _ _ Hb) as (Hst & _).
  destruct (App.generateSpeech _ _ _ _ _ _ _ s) as [s2 r].
  cbn [fst snd] in *. subst. reflexivity.
Qed.

(** [playAudio] on a state whose ref is empty. *)
Lemma playAudio_fresh (b : AudioBuffer) (cb : endedCallback) (s : State) :
  audioContextRef s <> None -> analyserRef s <> None -> sourceNodeRef s = None ->
  playAudio b cb s
  = setSourceNodeRef (Some (List.length (nodes s)))
      (setNodes (nodes s ++ [mkSource b cb Playing]) s).
Proof.
  intros Hc Ha Hr. unfold playAudio.
  destruct (audioContextRef s); [|congruence].
  destruct (analyserRef s); [|congruence].
  rewrite Hr. reflexivity.
Qed.

(** *** The preview marker and the refs *)

Ltac open_speech :=
  match goal with
  | |- context [App.generateSpeech ?k ?d ?ds ?t ?v ?x ?r ?st] =>
      let trace := fresh "trace" in
      let Ht := fresh "Ht" in
      let s2 := fresh "s2" in
      let res := fresh "res" in
      destruct (speech_only_log t v x r st) as [trace Ht];
      destruct (App.generateSpeech k d ds t v x r st) as [s2 res];
      cbn [fst] in Ht; subst s2
  end.

Ltac open_play :=
  match goal with
  | |- context [playAudio ?b ?cb ?x] => rewrite (playAudio_only_audio b cb x)
  end.

Ltac open_stop :=
  match goal with
  | |- context [stopAudio ?x] => rewrite (stopAudio_only x)
  end.

Lemma ensureAudioContext_None (s : State) :
  audioContextRef (ensureAudioContext s) = None -> audioContextRef s = None.
Proof.
  unfold ensureAudioContext. destruct (audioContextRef s) as [c|] eqn:E; [|reflexivity].
  destruct (state c); cbn; [discriminate | rewrite E; discriminate].
Qed.

Lemma generate_enter_cases (s : State) :
  fst (handleGenerate_enter s) = s \/
  fst (handleGenerate_enter s)
  = alert "Character limit exceeded. Please reduce to 5000 characters." s \/
  fst (handleGenerate_enter s) = ensureAudioContext s.
Proof.
  unfold handleGenerate_enter.
  destruct (audioContextRef s); [|auto].
  destruct (negb (truthy (trim (text s)))); [auto|].
  destruct (MAX_CHARS <? String.length (text s)); [auto|].
  destruct (find _ VOICE_OPTIONS); auto.
Qed.

Lemma preview_enter_cases (voice : VoicePersona) (s : State) :
  fst (handlePreview_enter voice s) = s \/
  fst (handlePreview_enter voice s) = ensureAudioContext s.
Proof.
  unfold handlePreview_enter.
  destruct (audioContextRef s); [|auto].
  destruct (previewVoiceId s) as [[|]|]; auto.
Qed.

Lemma ensureAudioContext_marker (s : State) :
  previewVoiceId s = None /\ (audioContextRef s <> None -> analyserRef s <> None) ->
  previewVoiceId (ensureAudioContext s) = None /\
  (audioContextRef (ensureAudioContext s) <> None ->
   analyserRef (ensureAudioContext s) <> None).
Proof.
  intros [Hm Hrefs]. rewrite (ensureAudioContext_only_ctx s). cbn.
  split; [exact Hm|]. intros H. apply Hrefs. intros Hn.
  apply H. unfold ensureAudioContext. rewrite Hn. exact Hn.
Qed.

Lemma step_marker (s s' : State) :
  steps s s' ->
  previewVoiceId s = None /\ (audioContextRef s <> None -> analyserRef s <> None) ->
  previewVoiceId s' = None /\ (audioContextRef s' <> None -> analyserRef s' <> None).
Proof.
  intros Hstep Hinv. pose proof Hinv as [Hm Hrefs]. destruct Hstep.
  - split; [exact Hm | cbn; discriminate].
  - exact Hinv.
  - exact Hinv.
  - unfold handleClear. open_stop. split; [reflexivity | exact Hrefs].
  - rewrite (ended_only i s). split; [|exact Hrefs].
    cbn. apply ended_marker, Hm.
  - destruct (generate_enter_cases s) as [-> | [-> | ->]];
      [exact Hinv | exact Hinv | apply ensureAudioContext_marker, Hinv].
  - unfold handleGenerate_prepare. open_stop. split; [reflexivity|].
    destruct (g_downloadUrl c); exact Hrefs.
  - unfold App.handleGenerate_finish. open_speech.
    destruct res as [e|b]; [exact Hinv|].
    unfold createObjectURL. open_play. exact Hinv.
  - destruct (preview_enter_cases voice s) as [-> | ->];
      [exact Hinv | apply ensureAudioContext_marker, Hinv].
  - unfold handlePreview_prepare. open_stop. split; [reflexivity | exact Hrefs].
  - unfold App.handlePreview_finish. cbv zeta. open_speech.
    destruct res as [e|b]; [split; [reflexivity | exact Hrefs]|].
    open_play. exact Hinv.
Qed.

Lemma reached_marker (s : State) :
  reached s ->
  previewVoiceId s = None /\ (audioContextRef s <> None -> analyserRef s <> None).
Proof.
  induction 1 as [|s s' _ IH Hstep].
  - split; [reflexivity | intros H; destruct H; reflexivity].
  - exact (step_marker s s' Hstep IH).
Qed.

(** X7.  The preview marker is never set when a handler starts or an
    event arrives: [handlePreview] sets it and calls [stopAudio], which
    clears it at once.  So, in every state the application reaches, the
    guard of [handlePreview] lets every preview through once the audio
    context is there, no preview button shows the spinner, and the
    visualizer is told "playing" exactly when [isPlaying] holds. *)
Theorem preview_marker_never_set (s : State) (Hs : reached s) :
  previewVoiceId s = None /\
  (forall c s0, previewVoiceId (handlePreview_prepare c s0) = None) /\
  (forall voice, preview_spinner voice s = false) /\
  radar_isPlaying s = isPlaying s /\
  (forall voice ctx,
      audioContextRef s = Some ctx ->
      handlePreview_enter voice s
      = (ensureAudioContext s, Some (mkPreview voice ctx))).
Proof.
  destruct (reached_marker s Hs) as [Hm _].
  split; [exact Hm|]. split; [|split; [|split]].
  - intros c s0. unfold handlePreview_prepare. open_stop. reflexivity.
  - intros voice. unfold preview_spinner. rewrite Hm. reflexivity.
  - unfold radar_isPlaying. rewrite Hm. apply orb_false_r.
  - intros voice ctx Hc. unfold handlePreview_enter. rewrite Hc, Hm. reflexivity.
Qed.

(** *** The object URLs *)

Lemma step_links (s s' : State) : steps s s' -> links_ok s -> links_ok s'.
Proof.
  intros Hstep Hinv. pose proof Hinv as [Hlive Hfresh]. destruct Hstep.
  - exact Hinv.
  - exact Hinv.
  - exact Hinv.
  - unfold handleClear. open_stop. split; [intros u [=] | exact Hfresh].
  - rewrite (ended_only i s). exact Hinv.
  - destruct (generate_enter_cases s) as [-> | [-> | ->]];
      [exact Hinv | exact Hinv |].
    rewrite (ensureAudioContext_only_ctx s). exact Hinv.
  - unfold handleGenerate_prepare. open_stop. split; [intros u [=]|].
    destruct (g_downloadUrl c) as [u|]; [|exact Hfresh].
    intros url Hu. cbn in Hu |- *. apply Hfresh.
    destruct Hu as [blob Hu]. apply lookup_delete_Some in Hu as [_ Hu]. eauto.
  - unfold App.handleGenerate_finish. open_speech.
    destruct res as [e|b]; [exact Hinv|].
    unfold createObjectURL. open_play. split; cbn.
    + intros url [= <-]. rewrite lookup_insert_eq. eauto.
    + intros url [blob Hu]. apply lookup_insert_Some in Hu as [[<- _]|[_ Hu]]; [lia|].
      assert (url < nextUrl s) by (apply Hfresh; eauto). lia.
  - destruct (preview_enter_cases voice s) as [-> | ->]; [exact Hinv|].
    rewrite (ensureAudioContext_only_ctx s). exact Hinv.
  - unfold handlePreview_prepare. open_stop. exact Hinv.
  - unfold App.handlePreview_finish. cbv zeta. open_speech.
    destruct res as [e|b]; [exact Hinv|].
    open_play. exact Hinv.
Qed.

(** X8.  In every state the application reaches the download link, when
    shown, names an object URL that is still alive (a URL is revoked
    only together with clearing the link), and object URLs are never
    reused: the next one is not in the store. *)
Theorem download_link_live (s : State) (Hs : reached s) :
  (forall url, downloadUrl s = Some url -> exists blob, blobs s !! url = Some blob) /\
  (download_shown s = true -> exists url blob,
      downloadUrl s = Some url /\ blobs s !! url = Some blob) /\
  (forall url, is_Some (blobs s !! url) -> url < nextUrl s) /\
  blobs s !! nextUrl s = None.
Proof.
  assert (H : links_ok s).
  { induction Hs as [|s s' _ IH Hstep].
    - split; [intros u [=] | intros u [blob Hu]; cbn in Hu].
      rewrite lookup_empty in Hu. discriminate Hu.
    - exact (step_links s s' Hstep IH). }
  destruct H as [Hlive Hfresh].
  split; [exact Hlive|]. split; [|split; [exact Hfresh|]].
  - unfold download_shown. destruct (downloadUrl s) as [u|] eqn:E; [|discriminate].
    intros _. destruct (Hlive u eq_refl) as [blob Hb]. eauto.
  - destruct (blobs s !! nextUrl s) as [blob|] eqn:E; [|reflexivity].
    assert (nextUrl s < nextUrl s) by (apply Hfresh; eauto). lia.
Qed.

(** *** Runs that succeed *)

Lemma prepare_rest (c : GenerateClosure) (s : State) :
  nextUrl (handleGenerate_prepare c s) = nextUrl s /\
  List.length (nodes (handleGenerate_prepare c s)) = List.length (nodes s) /\
  blobs (handleGenerate_prepare c s)
  = match g_downloadUrl c with Some u => delete u (blobs s) | None => blobs s end /\
  (one_source s -> quiet (handleGenerate_prepare c s)).
Proof.
  unfold handleGenerate_prepare. repeat split.
  - open_stop. destruct (g_downloadUrl c); reflexivity.
  - rewrite stopAudio_length. destruct (g_downloadUrl c); reflexivity.
  - open_stop. destruct (g_downloadUrl c); reflexivity.
  - intros H. apply stopAudio_quiet. destruct (g_downloadUrl c); exact H.
Qed.

Lemma ensureAudioContext_rest (s : State) :
  text (ensureAudioContext s) = text s /\
  nextUrl (ensureAudioContext s) = nextUrl s /\
  nodes (ensureAudioContext s) = nodes s /\
  sourceNodeRef (ensureAudioContext s) = sourceNodeRef s /\
  blobs (ensureAudioContext s) = blobs s /\
  log (ensureAudioContext s) = log s /\
  analyserRef (ensureAudioContext s) = analyserRef s /\
  audioBuffer (ensureAudioContext s) = audioBuffer s /\
  downloadUrl (ensureAudioContext s) = downloadUrl s /\
  isLoading (ensureAudioContext s) = isLoading s.
Proof. rewrite (ensureAudioContext_only_ctx s). repeat split. Qed.

(** X9.  A generation that passes the guards and whose service call
    returns a buffer ends with that buffer stored, its WAV encoding
    behind a new download link, the loading flag off, the playing flag
    on, and one source node playing: a new node, holding that buffer,
    which [sourceNodeRef] holds.  The trace shows the old link revoked,
    then the one request, then the new URL. *)
Theorem successful_generation (reply : ApiReply) (s s1 : State)
    (c : GenerateClosure) (b : AudioBuffer)
    (Hs : reached s)
    (Henter : handleGenerate_enter s = (s1, Some c))
    (Hb : snd (speech (g_text c) (apiVoice (g_option c)) (g_ctx c) reply s) = inr b) :
  let s' := generate reply s in
  let node := List.length (nodes s) in
  audioBuffer s' = Some b /\
  isLoading s' = false /\
  isPlaying s' = true /\
  radar_isPlaying s' = true /\
  sourceNodeRef s' = Some node /\
  nodes s' !! node = Some (mkSource b clearPlaying Playing) /\
  playing s' = [node] /\
  downloadUrl s' = Some (nextUrl s) /\
  blobs s' !! nextUrl s = Some (audioBufferToWav pcm16 b) /\
  text s' = text s /\
  log s' = log s ++ revoked (downloadUrl s)
                 ++ [ApiRequest (text s) (apiVoice (g_option c));
                     CreateObjectURL (nextUrl s)].
Proof.
  cbv zeta.
  destruct (handleGenerate_enter_passes API_KEY decodeBase64 s s1 c Henter)
    as (-> & Htext & Hurl & Hctx & _).
  destruct (reached_marker s Hs) as [_ Hrefs].
  pose proof (reachable_one_source _ _ _ _ s Hs) as Hone.
  destruct (ensureAudioContext_rest s)
    as (Et & En & Enodes & Eref & Eblobs & Elog & Ean & _).
  destruct (ensureAudioContext_is_Some s _ Hctx) as [ctx' Hctx'].
  pose proof (handleGenerate_prepare_fields c (ensureAudioContext s)) as Hp.
  cbv zeta in Hp.
  destruct Hp as (Pt & Pc & Pa & _ & _ & _ & _ & _ & Pr & Plog & _).
  destruct (prepare_rest c (ensureAudioContext s)) as (Pn & Plen & _ & Pq).
  assert (Hq : quiet (handleGenerate_prepare c (ensureAudioContext s))).
  { apply Pq. rewrite (ensureAudioContext_only_ctx s). exact Hone. }
  unfold App.handleGenerate. rewrite Henter.
  rewrite (generateSpeech_result _ _ _ _ _ _ _ s
             (handleGenerate_prepare c (ensureAudioContext s))) in Hb.
  rewrite (generate_finish_success c reply _ b Hb).
  remember (handleGenerate_prepare c (ensureAudioContext s)) as s0 eqn:Es0.
  match goal with |- context [playAudio ?b ?cb ?x] =>
    rewrite (playAudio_fresh b cb x)
  end; cbn [audioContextRef analyserRef sourceNodeRef setDownloadUrl emit setBlobs
              setAudioBuffer];
    [| rewrite Pc, Hctx'; discriminate
     | rewrite Pa, Ean; apply Hrefs; congruence
     | exact Pr].
  assert (Hlen : List.length (nodes s0) = List.length (nodes s))
    by (rewrite Plen, Enodes; reflexivity).
  match goal with |- context [playing ?st] =>
    assert (Hplay : playing st = [List.length (nodes s0)])
      by (eapply (playing_snoc s0); [exact Hq | reflexivity | reflexivity]);
    rewrite Hplay
  end.
  cbn. rewrite <- Hlen. rewrite Pn, En, Pt, Et, Plog, Elog, Hurl, Htext.
  repeat split.
  - rewrite lookup_app_r by lia. rewrite Nat.sub_diag. reflexivity.
  - apply lookup_insert_eq.
  - rewrite <- !app_assoc. reflexivity.
Qed.

Lemma quiet_playing (s : State) : quiet s -> playing s = [].
Proof.
  intros Hq. unfold playing. apply filter_none. intros i _.
  destruct (nodes s !! i) as [n|] eqn:E; [|reflexivity].
  specialize (Hq i n E). destruct (status n); congruence.
Qed.

(** X10.  A preview whose service call returns a buffer plays it on a
    new source node, the only one playing, and leaves the generated
    audio, the download link, the script and the loading flag as they
    were.  It plays unmarked: the playing flag is off and the preview
    marker empty, so the visualizer is told "not playing" while the
    preview sounds. *)
Theorem preview_plays_unmarked (voice : VoicePersona) (reply : ApiReply)
    (s : State) (ctx : AudioContext) (b : AudioBuffer)
    (Hs : reached s)
    (Hctx : audioContextRef s = Some ctx)
    (Hb : snd (speech ("Hello, I am " ++ displayName voice ++ ".")
                 (apiVoice voice) ctx reply s) = inr b) :
  let s' := preview voice reply s in
  let node := List.length (nodes s) in
  playing s' = [node] /\
  nodes s' !! node = Some (mkSource b clearPreview Playing) /\
  sourceNodeRef s' = Some node /\
  isPlaying s' = false /\
  previewVoiceId s' = None /\
  radar_isPlaying s' = false /\
  audioBuffer s' = audioBuffer s /\
  downloadUrl s' = downloadUrl s /\
  blobs s' = blobs s /\
  text s' = text s /\
  isLoading s' = isLoading s /\
  log s' = log s ++ [ApiRequest ("Hello, I am " ++ displayName voice ++ ".")
                                (apiVoice voice)].
Proof.
  cbv zeta.
  destruct (reached_marker s Hs) as [Hm Hrefs].
  pose proof (reachable_one_source _ _ _ _ s Hs) as Hone.
  destruct (ensureAudioContext_rest s)
    as (Et & En & Enodes & Eref & Eblobs & Elog & Ean & Eab & Edl & Eil).
  destruct (ensureAudioContext_is_Some s _ Hctx) as [ctx' Hctx'].
  unfold App.handlePreview, handlePreview_enter. rewrite Hctx, Hm.
  set (c := mkPreview voice ctx).
  remember (handlePreview_prepare c (ensureAudioContext s)) as s0 eqn:Es0.
  assert (Hfields :
    text s0 = text s /\ isLoading s0 = isLoading s /\ audioBuffer s0 = audioBuffer s /\
    downloadUrl s0 = downloadUrl s /\ audioContextRef s0 = Some ctx' /\
    analyserRef s0 = analyserRef s /\ blobs s0 = blobs s /\ log s0 = log s /\
    isPlaying s0 = false /\ previewVoiceId s0 = None /\ sourceNodeRef s0 = None /\
    List.length (nodes s0) = List.length (nodes s) /\ quiet s0).
  { subst s0. unfold handlePreview_prepare.
    match goal with |- context [stopAudio ?x] =>
      pose proof (stopAudio_fields x) as Hf; pose proof (stopAudio_length x) as Hl;
      pose proof (stopAudio_quiet x) as Hq
    end.
    cbv zeta in Hf.
    destruct Hf as (F1 & _ & F3 & F4 & F5 & F6 & F7 & F8 & _ & F10 & F11 & F12 & F13 & _).
    rewrite F1, F3, F4, F5, F6, F7, F8, F10, F11, F12, F13, Hl. cbn.
    rewrite Et, Eil, Eab, Edl, Hctx', Ean, Eblobs, Elog, Enodes.
    repeat split. apply Hq. rewrite (ensureAudioContext_only_ctx s). exact Hone. }
  destruct Hfields as (Ft & Fil & Fab & Fdl & Fc & Fa & Fb & Flog & Fp & Fm & Fr & Flen & Fq).
  assert (Hb0 : snd (speech ("Hello, I am " ++ displayName (p_voice c) ++ ".")
                       (apiVoice (p_voice c)) (p_ctx c) reply s0) = inr b).
  { rewrite (generateSpeech_result _ _ _ _ _ _ _ s0 s). exact Hb. }
  rewrite (preview_finish_success c reply s0 b Hb0).
  match goal with |- context [playAudio ?b ?cb ?x] =>
    rewrite (playAudio_fresh b cb x)
  end; cbn [audioContextRef analyserRef sourceNodeRef emit];
    [| rewrite Fc; discriminate
     | rewrite Fa; apply Hrefs; congruence
     | exact Fr].
  match goal with |- context [playing ?st] =>
    assert (Hplay : playing st = [List.length (nodes s0)])
      by (eapply (playing_snoc s0); [exact Fq | reflexivity | reflexivity]);
    rewrite Hplay
  end.
  unfold radar_isPlaying. cbn. rewrite <- Flen. rewrite Ft, Fil, Fab, Fdl, Fb, Flog, Fp, Fm.
  repeat split.
  rewrite lookup_app_r by lia. rewrite Nat.sub_diag. reflexivity.
Qed.

(** X11.  Reset empties the script, forgets the buffer, hides the
    download link and stops the playback, so that no source node plays.
    It revokes nothing: the object URLs stay in the store and nothing is
    added to the trace.  It leaves the loading flag alone, and a
    generation under way is not cancelled: when its reply comes, its
    buffer is stored as after any other generation. *)
Theorem handleClear_resets (s : State) (Hs : reached s) :
  let s' := handleClear s in
  text s' = ""%string /\
  audioBuffer s' = None /\
  downloadUrl s' = None /\
  isPlaying s' = false /\
  previewVoiceId s' = None /\
  sourceNodeRef s' = None /\
  playing s' = [] /\
  blobs s' = blobs s /\
  log s' = log s /\
  isLoading s' = isLoading s /\
  selectedVoiceId s' = selectedVoiceId s /\
  (forall c reply b,
      snd (speech (g_text c) (apiVoice (g_option c)) (g_ctx c) reply s') = inr b ->
      audioBuffer (generate_finish c reply s') = Some b /\
      text (generate_finish c reply s') = ""%string).
Proof.
  cbv zeta.
  pose proof (reachable_one_source _ _ _ _ s Hs) as Hone.
  assert (Hq : quiet (handleClear s))
    by (unfold handleClear; apply stopAudio_quiet; exact Hone).
  rewrite (quiet_playing _ Hq).
  repeat split; try (unfold handleClear; open_stop; reflexivity).
  - apply (handleGenerate_finish_returns _ _ _ _ c reply _ b H).
  - rewrite (generate_finish_success c reply _ b H). open_play.
    unfold handleClear. open_stop. reflexivity.
Qed.

(** X12.  Stopping, resetting and resuming are idempotent: a second
    [stopAudio], [handleClear] or [ensureAudioContext] changes nothing;
    and after [ensureAudioContext] a context that is there is running,
    at the sample rate it had. *)
Theorem stop_clear_resume_idempotent (s : State) :
  stopAudio (stopAudio s) = stopAudio s /\
  handleClear (handleClear s) = handleClear s /\
  ensureAudioContext (ensureAudioContext s) = ensureAudioContext s /\
  (forall ctx, audioContextRef s = Some ctx ->
     audioContextRef (ensureAudioContext s)
     = Some (mkContext (ctx_sampleRate ctx) running)).
Proof.
  assert (Hstop : forall x, stopAudio (stopAudio x) = stopAudio x).
  { intros x. unfold stopAudio at 1.
    pose proof (stopAudio_fields x) as Hf. cbv zeta in Hf.
    destruct Hf as (_ & _ & _ & _ & _ & _ & _ & _ & _ & _ & _ & _ & -> & _).
    rewrite (stopAudio_only x). reflexivity. }
  split; [apply Hstop|]. split; [|split].
  - unfold handleClear.
    rewrite (stopAudio_only (setDownloadUrl None (setAudioBuffer None (setText "" s)))).
    unfold stopAudio at 1. reflexivity.
  - unfold ensureAudioContext at 1.
    unfold ensureAudioContext. destruct (audioContextRef s) as [c|] eqn:E.
    + destruct (state c) eqn:Est; cbn; [reflexivity | rewrite E, Est; reflexivity].
    + rewrite E. reflexivity.
  - intros ctx Hc. unfold ensureAudioContext. rewrite Hc.
    destruct ctx as [rate []]; cbn; [reflexivity | exact Hc].
Qed.

(** *** The trace of a generation *)

Lemma enter_none_cases (s s1 : State) :
  handleGenerate_enter s = (s1, None) ->
  s1 = s \/
  (MAX_CHARS < String.length (text s) /\
   s1 = alert "Character limit exceeded. Please reduce to 5000 characters." s).
Proof.
  unfold handleGenerate_enter.
  destruct (audioContextRef s); [|intros [= <-]; auto].
  destruct (negb (truthy (trim (text s)))); [intros [= <-]; auto|].
  destruct (MAX_CHARS <? String.length (text s)) eqn:E.
  - intros [= <-]. right. split; [apply Nat.ltb_lt, E | reflexivity].
  - destruct (find _ VOICE_OPTIONS); [discriminate | intros [= <-]; auto].
Qed.

Lemma enter_some_voice (s s1 : State) (c : GenerateClosure) :
  handleGenerate_enter s = (s1, Some c) ->
  id (g_option c) = selectedVoiceId s /\ In (g_option c) VOICE_OPTIONS.
Proof.
  unfold handleGenerate_enter.
  destruct (audioContextRef s); [|discriminate].
  destruct (negb (truthy (trim (text s)))); [discriminate|].
  destruct (MAX_CHARS <? String.length (text s)); [discriminate|].
  destruct (find _ VOICE_OPTIONS) as [p|] eqn:E; [|discriminate].
  intros [= _ <-]. cbn [g_option].
  apply List.find_some in E as [Hin Heq]. apply String.eqb_eq in Heq. split; assumption.
Qed.

Lemma speech_returns_key (text : string) (voice : VoiceName) (ctx : AudioContext)
    (reply : ApiReply) (s : State) (b : AudioBuffer) :
  snd (speech text voice ctx reply s) = inr b -> truthy API_KEY = true.
Proof.
  unfold App.generateSpeech. destruct (truthy API_KEY); [reflexivity | discriminate].
Qed.

Lemma generate_trace (reply : ApiReply) (s : State) :
  match handleGenerate_enter s with
  | (s1, None) =>
      generate reply s = s1 /\
      (s1 = s \/
       (MAX_CHARS < String.length (text s) /\
        s1 = alert "Character limit exceeded. Please reduce to 5000 characters." s))
  | (s1, Some c) =>
      log (generate reply s)
      = log s ++ revoked (downloadUrl s)
        ++ match snd (speech (g_text c) (apiVoice (g_option c)) (g_ctx c) reply s) with
           | inl e => service_trace API_KEY (text s) (apiVoice (g_option c)) e
                      ++ [ConsoleError e; Alert "Generation failed. Please try again."]
           | inr b => [ApiRequest (text s) (apiVoice (g_option c));
                       CreateObjectURL (nextUrl s)]
           end
  end.
Proof.
  destruct (handleGenerate_enter s) as [s1 [c|]] eqn:Henter.
  - destruct (handleGenerate_enter_passes API_KEY decodeBase64 s s1 c Henter)
      as (-> & Htext & Hurl & _).
    destruct (ensureAudioContext_rest s) as (_ & En & _ & _ & _ & Elog & _).
    pose proof (handleGenerate_prepare_fields c (ensureAudioContext s)) as Hp.
    cbv zeta in Hp. destruct Hp as (_ & _ & _ & _ & _ & _ & _ & _ & _ & Plog & _).
    destruct (prepare_rest c (ensureAudioContext s)) as (Pn & _).
    rewrite Elog, Hurl in Plog. rewrite En in Pn.
    destruct (snd (speech (g_text c) (apiVoice (g_option c)) (g_ctx c) reply s))
      as [e|b] eqn:Hres.
    + rewrite (handleGenerate_failure API_KEY pcm16 decodeBase64 decodeSamples
                 reply s _ c e Henter Hres).
      rewrite emits_eq.
      remember (handleGenerate_prepare c (ensureAudioContext s)) as s0.
      cbn. rewrite Plog, Htext, <- !app_assoc. reflexivity.
    + unfold App.handleGenerate. rewrite Henter.
      rewrite (generateSpeech_result _ _ _ _ _ _ _ s
                 (handleGenerate_prepare c (ensureAudioContext s))) in Hres.
      destruct (handleGenerate_finish_returns API_KEY pcm16 decodeBase64 decodeSamples
                  c reply _ b Hres) as (_ & _ & _ & _ & Hlog).
      rewrite Hlog, Plog, Pn, Htext, <- !app_assoc. reflexivity.
  - unfold App.handleGenerate. rewrite Henter.
    split; [reflexivity | exact (enter_none_cases s s1 Henter)].
Qed.

(** X13.  A run of [handleGenerate] sends at most one request: exactly
    one, carrying the script and the API voice of the selected persona
    (which is Puck, Charon or Fenrir, never Kore or Zephyr), when the
    guards pass and the key is there; none otherwise. *)
Theorem generation_requests (reply : ApiReply) (s : State) :
  exists trace,
    log (generate reply s) = log s ++ trace /\
    List.filter is_request trace
    = match snd (handleGenerate_enter s) with
      | Some c => if truthy API_KEY
                  then [ApiRequest (text s) (apiVoice (g_option c))]
                  else []
      | None => []
      end /\
    (forall c, snd (handleGenerate_enter s) = Some c ->
       id (g_option c) = selectedVoiceId s /\
       In (g_option c) VOICE_OPTIONS /\
       apiVoice (g_option c) <> Kore /\ apiVoice (g_option c) <> Zephyr).
Proof.
  pose proof (generate_trace reply s) as H.
  destruct (handleGenerate_enter s) as [s1 [c|]] eqn:Henter; cbn [snd].
  - eexists. split; [exact H|]. split.
    + rewrite !List.filter_app.
      assert (Hrev : List.filter is_request (revoked (downloadUrl s)) = [])
        by (destruct (downloadUrl s); reflexivity).
      rewrite Hrev. cbn [app].
      destruct (snd (speech (g_text c) (apiVoice (g_option c)) (g_ctx c) reply s))
        as [e|b] eqn:Hres.
      * unfold service_trace. destruct (truthy API_KEY); reflexivity.
      * rewrite (speech_returns_key _ _ _ _ _ _ Hres). reflexivity.
    + intros c' [= <-].
      destruct (enter_some_voice s s1 c Henter) as [Hid Hin].
      split; [exact Hid|]. split; [exact Hin|].
      cbn in Hin. decompose [or] Hin; subst; try contradiction;
        match goal with H : _ = g_option c |- _ => rewrite <- H end;
        split; discriminate.
  - destruct H as [-> [-> | [_ ->]]].
    + exists []. rewrite app_nil_r. split; [reflexivity|]. split; [reflexivity|].
      intros c' Hc'. discriminate Hc'.
    + eexists. split; [reflexivity|].
      split; [reflexivity | intros c' Hc'; discriminate Hc'].
Qed.

(** X14.  The button shuts out what the limit guard would catch: it is
    disabled whenever the script is over the limit, and a run started
    while it is enabled never shows the character-limit alert. *)
Theorem button_excludes_limit_alert (reply : ApiReply) (s : State)
    (Henabled : generate_disabled s = false) :
  over_limit s = false /\
  exists trace,
    log (generate reply s) = log s ++ trace /\
    ~ In (Alert "Character limit exceeded. Please reduce to 5000 characters.") trace.
Proof.
  unfold generate_disabled in Henabled. apply orb_false_iff in Henabled as [_ Hlen].
  split; [exact Hlen|].
  pose proof (generate_trace reply s) as H.
  destruct (handleGenerate_enter s) as [s1 [c|]] eqn:Henter.
  - eexists. split; [exact H|].
    rewrite !in_app_iff. intros [Hin | Hin].
    + destruct (downloadUrl s); cbn in Hin; [destruct Hin as [[=]|[]] | exact Hin].
    + destruct (snd (speech (g_text c) (apiVoice (g_option c)) (g_ctx c) reply s)).
      * rewrite in_app_iff in Hin. unfold service_trace in Hin.
        destruct (truthy API_KEY); cbn in Hin;
          decompose [or] Hin; try discriminate; try contradiction.
      * cbn in Hin. decompose [or] Hin; try discriminate; try contradiction.
  - destruct H as [-> [-> | [Hover _]]].
    + exists []. rewrite app_nil_r. split; [reflexivity | intros []].
    + apply Nat.ltb_lt in Hover. congruence.
Qed.

(** *** The life of a source node *)

Lemma status_le_refl (a : nodeStatus) : status_le a a = true.
Proof. destruct a; reflexivity. Qed.

Lemma status_le_trans (a b c : nodeStatus) :
  status_le a b = true -> status_le b c = true -> status_le a c = true.
Proof. destruct a, b, c; simpl; congruence. Qed.

Lemma grows_refl (ns : list SourceNode) : grows ns ns.
Proof. intros i n Hi. exists n. repeat split; [exact Hi | apply status_le_refl]. Qed.

Lemma grows_trans (a b c : list SourceNode) : grows a b -> grows b c -> grows a c.
Proof.
  intros Hab Hbc i n Hi.
  destruct (Hab i n Hi) as (n1 & H1 & Hb1 & Ho1 & Hs1).
  destruct (Hbc i n1 H1) as (n2 & H2 & Hb2 & Ho2 & Hs2).
  exists n2. repeat split; try congruence.
  exact (status_le_trans _ _ _ Hs1 Hs2).
Qed.

Lemma grows_update (ns : list SourceNode) (i : nat) (n m : SourceNode) :
  ns !! i = Some n -> buffer m = buffer n -> onended m = onended n ->
  status_le (status n) (status m) = true ->
  grows ns (<[i := m]> ns).
Proof.
  intros Hi Hb Ho Hs j x Hj.
  destruct (decide (i = j)) as [<-|Hne].
  - exists m. rewrite list_lookup_insert_eq by (eapply lookup_lt_Some; exact Hi).
    assert (x = n) by congruence. subst x. repeat split; assumption.
  - exists x. rewrite list_lookup_insert_ne by exact Hne.
    repeat split; [exact Hj | apply status_le_refl].
Qed.

Lemma grows_snoc (ns : list SourceNode) (m : SourceNode) : grows ns (ns ++ [m]).
Proof.
  intros i n Hi. exists n.
  rewrite lookup_app_l by (eapply lookup_lt_Some; exact Hi).
  repeat split; [exact Hi | apply status_le_refl].
Qed.

Lemma stop_grows (i : nat) (s : State) : grows (nodes s) (nodes (stop i s)).
Proof.
  unfold stop. destruct (nodes s !! i) as [n|] eqn:E; cbn [nodes setNodes];
    [|apply grows_refl].
  apply (grows_update _ _ n); try exact E;
    unfold stop_node; destruct (status n) eqn:Es; cbn; rewrite ?Es; reflexivity.
Qed.

Lemma stopAudio_grows (s : State) : grows (nodes s) (nodes (stopAudio s)).
Proof.
  unfold stopAudio. destruct (sourceNodeRef s); cbn; [apply stop_grows | apply grows_refl].
Qed.

Lemma playAudio_grows (b : AudioBuffer) (cb : endedCallback) (s : State) :
  grows (nodes s) (nodes (playAudio b cb s)).
Proof.
  unfold playAudio.
  destruct (audioContextRef s); [|apply grows_refl].
  destruct (analyserRef s); [|apply grows_refl].
  destruct (sourceNodeRef s) as [i|]; cbn.
  - eapply grows_trans; [apply stop_grows | apply grows_snoc].
  - apply grows_snoc.
Qed.

Lemma ended_grows (i : nat) (s : State) : grows (nodes s) (nodes (ended i s)).
Proof.
  unfold ended. destruct (nodes s !! i) as [n|] eqn:E; [|apply grows_refl].
  destruct (status n) eqn:Es; [| |apply grows_refl];
    destruct (onended n) eqn:Eo; cbn;
    apply (grows_update _ _ n); cbn; rewrite ?Es, ?Eo; try exact E; reflexivity.
Qed.

Lemma step_grows (s s' : State) : steps s s' -> grows (nodes s) (nodes s').
Proof.
  intros Hstep. destruct Hstep.
  - apply grows_refl.
  - apply grows_refl.
  - apply grows_refl.
  - unfold handleClear.
    exact (stopAudio_grows (setDownloadUrl None (setAudioBuffer None (setText "" s)))).
  - apply ended_grows.
  - destruct (generate_enter_cases s) as [-> | [-> | ->]]; try apply grows_refl.
    destruct (ensureAudioContext_rest s) as (_ & _ & -> & _). apply grows_refl.
  - unfold handleGenerate_prepare.
    match goal with |- context [stopAudio ?x] =>
      pose proof (stopAudio_grows x) as H
    end.
    destruct (g_downloadUrl c); exact H.
  - unfold App.handleGenerate_finish. open_speech.
    destruct res as [e|b]; [apply grows_refl|].
    unfold createObjectURL. cbn [nodes setIsLoading setIsPlaying].
    match goal with |- context [playAudio ?b ?cb ?x] =>
      exact (playAudio_grows b cb x)
    end.
  - destruct (preview_enter_cases voice s) as [-> | ->]; try apply grows_refl.
    destruct (ensureAudioContext_rest s) as (_ & _ & -> & _). apply grows_refl.
  - unfold handlePreview_prepare.
    exact (stopAudio_grows (setPreviewVoiceId (Some (id (p_voice c))) s)).
  - unfold App.handlePreview_finish. cbv zeta. open_speech.
    destruct res as [e|b]; [apply grows_refl|].
    match goal with |- context [playAudio ?b ?cb ?x] =>
      exact (playAudio_grows b cb x)
    end.
Qed.

(** X15.  Source nodes are never removed and never restarted: through
    any number of steps a node keeps its index, its buffer and its
    callback, and only moves forward from playing to stopped to ended;
    in particular a node that no longer plays never plays again. *)
Theorem nodes_never_restart (s s' : State) (Hsteps : rtc steps s s') :
  List.length (nodes s) <= List.length (nodes s') /\
  forall i n, nodes s !! i = Some n ->
    exists n', nodes s' !! i = Some n' /\
               buffer n' = buffer n /\ onended n' = onended n /\
               status_le (status n) (status n') = true /\
               (status n <> Playing -> status n' <> Playing).
Proof.
  assert (H : grows (nodes s) (nodes s')).
  { induction Hsteps as [|s s1 s2 Hstep _ IH]; [apply grows_refl|].
    exact (grows_trans _ _ _ (step_grows _ _ Hstep) IH). }
  split.
  - destruct (nodes s) as [|n0 ns] eqn:E; [cbn; lia|].
    rewrite <- E in *.
    assert (Hlast : is_Some (nodes s !! (List.length (nodes s) - 1))).
    { apply lookup_lt_is_Some. rewrite E. cbn. lia. }
    destruct Hlast as [n Hn]. destruct (H _ n Hn) as (n' & Hn' & _).
    apply lookup_lt_Some in Hn'. rewrite E in *. cbn in *. lia.
  - intros i n Hi. destruct (H i n Hi) as (n' & Hn' & Hb & Ho & Hle).
    exists n'. repeat split; try assumption.
    intros Hnp Hp. rewrite Hp in Hle. destruct (status n); [congruence | discriminate..].
Qed.

(** X16.  The progress bar is between 0 and 100 percent wide; it is full
    exactly from 5000 characters on, and over the limit it is full while
    the counter is red and the button disabled. *)
Theorem progress_width_bounds (s : State) :
  (0 <= progress_width s <= 100)%Q /\
  (MAX_CHARS <= String.length (text s) -> (progress_width s == 100)%Q) /\
  (String.length (text s) < MAX_CHARS -> (progress_width s < 100)%Q) /\
  (over_limit s = true ->
   generate_disabled s = true /\ (progress_width s == 100)%Q).
Proof.
  unfold progress_width.
  set (len := String.length (text s)).
  assert (Hmax : inject_Z (Z.of_nat MAX_CHARS) = 5000%Q) by (vm_compute; reflexivity).
  rewrite Hmax.
  assert (E : (inject_Z (Z.of_nat len) / 5000 * 100 == inject_Z (Z.of_nat len) * (1 # 50))%Q)
    by field.
  assert (Hlen0 : (0 <= inject_Z (Z.of_nat len))%Q)
    by (change 0%Q with (inject_Z 0); rewrite <- Zle_Qle; lia).
  assert (Hfull : MAX_CHARS <= len ->
                  (Qmin (inject_Z (Z.of_nat len) / 5000 * 100) 100 == 100)%Q).
  { intros H. apply Q.min_r. rewrite E.
    assert ((5000 <= inject_Z (Z.of_nat len))%Q).
    { change 5000%Q with (inject_Z (Z.of_nat MAX_CHARS)) at 1.
      rewrite <- Zle_Qle. lia. }
    lra. }
  split; [|split; [exact Hfull|split]].
  - split.
    + apply Q.min_glb; [rewrite E; lra | discriminate].
    + apply Q.le_min_r.
  - intros H. eapply Qle_lt_trans; [apply Q.le_min_l|]. rewrite E.
    assert ((inject_Z (Z.of_nat len) < 5000)%Q).
    { change 5000%Q with (inject_Z (Z.of_nat MAX_CHARS)).
      rewrite <- Zlt_Qlt. lia. }
    lra.
  - unfold over_limit, generate_disabled. fold len. intros H. rewrite H.
    split; [apply orb_true_r|]. apply Hfull. apply Nat.ltb_lt in H. lia.
Qed.

End Service.

(** *** On the sample states *)

Lemma preview_marker_never_set_witness :
  run_reachable Samples.generated /\
  radar_isPlaying Samples.generated = isPlaying Samples.generated.
Proof.
  split; [exact generated_reachable|].
  apply (preview_marker_never_set "key" pcm16_usual Samples.decode_bytes
           Samples.decode_pcm16 Samples.generated generated_reachable).
Defined.

Lemma download_link_live_witness :
  run_reachable Samples.generated /\
  blobs Samples.generated !! nextUrl Samples.generated = None.
Proof.
  split; [exact generated_reachable|].
  apply (download_link_live "key" pcm16_usual Samples.decode_bytes
           Samples.decode_pcm16 Samples.generated generated_reachable).
Defined.

Lemma successful_generation_witness :
  run_reachable Samples.mounted /\
  playing Samples.generated = [0] /\
  isPlaying Samples.generated = true /\
  downloadUrl Samples.generated = Some 0.
Proof.
  split; [exact mounted_reachable|].
  pose proof (successful_generation "key" pcm16_usual Samples.decode_bytes
                Samples.decode_pcm16 (Responded (Some "abcd"%string)) Samples.mounted
                (ensureAudioContext Samples.mounted)
                (mkGenerate DEFAULT_TEXT Samples.mike None (mkContext 24000 suspended))
                _ mounted_reachable eq_refl eq_refl) as H.
  cbv zeta in H. destruct H as (_ & _ & Hp & _ & _ & _ & Hplay & Hd & _).
  split; [exact Hplay|]. split; [exact Hp | exact Hd].
Defined.

Lemma preview_plays_unmarked_witness :
  run_reachable Samples.generated /\
  playing (run_preview Samples.mike (Responded (Some "abcd"%string)) Samples.generated)
  = [1] /\
  radar_isPlaying
    (run_preview Samples.mike (Responded (Some "abcd"%string)) Samples.generated)
  = false.
Proof.
  split; [exact generated_reachable|].
  pose proof (preview_plays_unmarked "key" pcm16_usual Samples.decode_bytes
                Samples.decode_pcm16 Samples.mike (Responded (Some "abcd"%string)) Samples.generated
                (mkContext 24000 running) _ generated_reachable eq_refl eq_refl) as H.
  cbv zeta in H. destruct H as (Hplay & _ & _ & _ & _ & Hr & _).
  split; [exact Hplay | exact Hr].
Defined.

Lemma handleClear_resets_witness :
  run_reachable Samples.generated /\
  playing Samples.generated = [0] /\
  playing (handleClear Samples.generated) = [] /\
  blobs (handleClear Samples.generated) = blobs Samples.generated.
Proof.
  split; [exact generated_reachable|]. split; [vm_compute; reflexivity|].
  pose proof (handleClear_resets "key" pcm16_usual Samples.decode_bytes
                Samples.decode_pcm16 Samples.generated generated_reachable) as H.
  cbv zeta in H. destruct H as (_ & _ & _ & _ & _ & _ & Hplay & Hb & _).
  split; [exact Hplay | exact Hb].
Defined.

Lemma button_excludes_limit_alert_witness :
  generate_disabled Samples.mounted = false /\
  over_limit Samples.mounted = false.
Proof.
  split; [vm_compute; reflexivity|].
  apply (button_excludes_limit_alert "key" pcm16_usual Samples.decode_bytes
           Samples.decode_pcm16 (Rejected "offline") Samples.mounted).
  vm_compute. reflexivity.
Defined.

Lemma nodes_never_restart_witness :
  rtc (step "key" pcm16_usual Samples.decode_bytes Samples.decode_pcm16)
      Samples.generated (handleClear Samples.generated) /\
  List.length (nodes Samples.generated)
  <= List.length (nodes (handleClear Samples.generated)).
Proof.
  assert (H : rtc (step "key" pcm16_usual Samples.decode_bytes Samples.decode_pcm16)
                  Samples.generated (handleClear Samples.generated))
    by (apply rtc_once, step_clear).
  split; [exact H|].
  apply (nodes_never_restart "key" pcm16_usual Samples.decode_bytes
           Samples.decode_pcm16 _ _ H).
Defined.

(** The disabled button and the full bar on the sample script of 5001
    characters. *)
Example long_text_view :
  generate_disabled (setText Samples.long_text Samples.mounted) = true /\
  Qred (progress_width (setText Samples.long_text Samples.mounted)) = 100%Q /\
  Qred (progress_width Samples.mounted) = (37 # 10)%Q.
Proof. vm_compute. repeat split. Qed.

End AppMore.

(** ** Frames on the 2D context *)

Module RadarCanvas.
Import Bytes BytesFacts Radar RadarFacts RadarMore Canvas2D.
Local Open Scope Q_scope.

Lemma exec_app (canvas : Canvas) (l1 l2 : list cmd) (s : RunState) :
  exec canvas (l1 ++ l2) s = exec canvas l2 (exec canvas l1 s).
Proof. unfold exec. apply fold_left_app. Qed.

Lemma covers_canvas (canvas : Canvas) :
  covers canvas 0 0 (inject_Z (width canvas)) (inject_Z (height canvas)) = true.
Proof.
  unfold covers. rewrite !andb_true_iff. repeat split; apply Qle_bool_iff;
    try apply Qle_refl; rewrite Qplus_0_l; apply Qle_refl.
Qed.

Lemma exec_cons (canvas : Canvas) (k : cmd) (l : list cmd) (s : RunState) :
  thrown s = false -> exec canvas (k :: l) s = exec canvas l (step canvas s k).
Proof. intros H. unfold exec. cbn [fold_left]. rewrite H. reflexivity. Qed.

Lemma exec_nil (canvas : Canvas) (s : RunState) : exec canvas [] s = s.
Proof. reflexivity. Qed.

Lemma offsets_valid :
  unit_offset 0 = true /\ unit_offset (1 # 2) = true /\ unit_offset 1 = true.
Proof. repeat split. Qed.

Lemma widths_valid : positive 2 = true /\ positive 4 = true.
Proof. repeat split. Qed.

Lemma inner_radius_valid : nonneg (baseRadius * (2 # 10)) = true /\ nonneg 3 = true.
Proof. repeat split. Qed.

(** One call at a time, on a state written out. *)
Ltac call :=
  rewrite exec_cons by reflexivity;
  cbn [step r_fill r_stroke r_width r_cap r_path r_bitmap v_gradient v_glow thrown
       detach assigned resolve add_stop shape stops throw start
       fillStyle strokeStyle lineWidth lineCap path bitmap andb];
  rewrite ?covers_canvas, ?(proj1 offsets_valid), ?(proj1 (proj2 offsets_valid)),
    ?(proj2 (proj2 offsets_valid)), ?(proj1 widths_valid), ?(proj2 widths_valid),
    ?(proj1 inner_radius_valid), ?(proj2 inner_radius_valid);
  cbn [andb].

Lemma exec_setup (canvas : Canvas) (c : Context) (rest : list cmd) :
  let w := inject_Z (width canvas) in
  let h := inject_Z (height canvas) in
  exec canvas (draw_setup w h ++ rest) (start c)
  = exec canvas rest
      (mkRun (Held (fillStyle c)) (Held (strokeStyle c)) (lineWidth c) (lineCap c)
             (path c) []
             (Some (mkGradient
                      (LinearShape (w / 2 - 100) (h / 2 - 100) (w / 2 + 100) (h / 2 + 100))
                      [(0, "#a3e635"%string); (1 # 2, "#10b981"%string);
                       (1, "#15803d"%string)]))
             None false).
Proof.
  cbv zeta. unfold draw_setup. cbv zeta. cbn [app].
  do 5 call. reflexivity.
Qed.

Lemma cap_round_valid : valid_cap "round" = true.
Proof. reflexivity. Qed.

Lemma exec_core (canvas : Canvas) (cx cy r : Q) (f st : styleRef) (wd : Q)
    (cp : string) (pth : list segment) (vg : option CanvasGradient)
    (rest : list cmd) :
  nonneg (r * (15 # 10)) = true -> nonneg (r - 5) = true ->
  exec canvas (draw_core cx cy r ++ rest) (mkRun f st wd cp pth [] vg None false)
  = exec canvas rest
      (mkRun LocalGlow (Held (Solid "rgba(255, 255, 255, 0.1)")) 2 cp
             [ArcTo cx cy (r - 5) 0 (Math_PI * 2)]
             (core_paints cx cy r cp)
             vg (Some (glow_gradient cx cy r)) false).
Proof.
  intros Hglow Hinner. unfold draw_core. cbn [app].
  call. rewrite Hglow. cbn [andb].
  do 5 call. rewrite Hglow.
  do 3 call. rewrite Hinner.
  do 3 call. reflexivity.
Qed.

Section Parts.

Variables Math_sin Math_cos : Q -> Q.

Lemma exec_bars (canvas : Canvas) (cx cy r : Q) (bs : list spectrumBar) :
  forall (pth : list segment), exists pth',
  forall (f : styleRef) (bm : list paint) (vglow : option CanvasGradient)
         (rest : list cmd),
    exec canvas (flat_map (draw_bar Math_sin Math_cos cx cy r) bs ++ rest)
         (mkRun f LocalGradient 4 "round" pth bm (Some (bars_gradient cx cy)) vglow false)
    = exec canvas rest
        (mkRun f LocalGradient 4 "round" pth'
               (bm ++ map (bar_paint Math_sin Math_cos cx cy r) bs)
               (Some (bars_gradient cx cy)) vglow false).
Proof.
  induction bs as [|b bs IH]; intros pth.
  - exists pth. intros. cbn [flat_map map app]. rewrite app_nil_r. reflexivity.
  - destruct (IH [MoveTo (cx + Math_cos (bar_angle b) * (r + 10))
                         (cy + Math_sin (bar_angle b) * (r + 10));
                  LineTo (cx + Math_cos (bar_angle b) * (r + 10 + bar_height b))
                         (cy + Math_sin (bar_angle b) * (r + 10 + bar_height b))])
      as [pth' Hrest].
    exists pth'. intros f bm vglow rest.
    cbn [flat_map map]. unfold draw_bar at 1. cbv zeta. cbn [app].
    do 4 call. rewrite Hrest. rewrite <- app_assoc. reflexivity.
Qed.

Lemma exec_particles (canvas : Canvas) (cx cy r time : Q) (l : list nat) :
  forall (pth : list segment), exists pth',
  forall (st : styleRef) (wd : Q) (cp : string) (bm : list paint)
         (vg vglow : option CanvasGradient) (rest : list cmd),
    exec canvas (flat_map (draw_particle Math_sin Math_cos cx cy r time) l ++ rest)
         (mkRun (Held (Solid "rgba(16, 185, 129, 0.5)")) st wd cp pth bm vg vglow false)
    = exec canvas rest
        (mkRun (Held (Solid "rgba(16, 185, 129, 0.5)")) st wd cp pth'
               (bm ++ map (particle_paint Math_sin Math_cos cx cy r time) l)
               vg vglow false).
Proof.
  induction l as [|i l IH]; intros pth.
  - exists pth. intros. cbn [flat_map map app]. rewrite app_nil_r. reflexivity.
  - destruct (IH [ArcTo (cx + Math_cos (time + inject_Z (Z.of_nat i) * (Math_PI * 2) / 8) * r)
                        (cy + Math_sin (time + inject_Z (Z.of_nat i) * (Math_PI * 2) / 8) * r)
                        3 0 (Math_PI * 2)]) as [pth' Hrest].
    exists pth'. intros st wd cp bm vg vglow rest.
    cbn [flat_map map]. unfold draw_particle at 1. cbv zeta. cbn [app].
    do 3 call. rewrite Hrest. rewrite <- app_assoc. reflexivity.
Qed.

(** The shape of a frame's calls: the set-up alone when the radius is
    not finite; otherwise the set-up, the core, and the bars or the
    particles. *)
Lemma draw_cases (canvas : Canvas) (isPlaying : bool)
    (analyser : option AnalyserNode) (now : nat -> Z) :
  let w := inject_Z (width canvas) in
  let h := inject_Z (height canvas) in
  match visualRadius Math_sin isPlaying analyser now with
  | Some r =>
      exists rest,
        draw Math_sin Math_cos canvas isPlaying analyser now
        = (draw_setup w h ++ draw_core (w / 2) (h / 2) r ++ rest, Scheduled) /\
        ((exists dataArray binCount,
            rest = draw_spectrum Math_sin Math_cos (w / 2) (h / 2) r dataArray binCount) \/
         (exists clock,
            rest = draw_idle Math_sin Math_cos (w / 2) (h / 2) r clock))
  | None =>
      draw Math_sin Math_cos canvas isPlaying analyser now = (draw_setup w h, Thrown)
  end.
Proof.
  cbv zeta. unfold visualRadius, draw.
  destruct (audio_data analyser) as [dataArray average]. cbn [snd].
  destruct (pulse Math_sin isPlaying average now) as [[p|] reads];
    cbn [fst option_map]; [|reflexivity].
  eexists. split; [reflexivity|].
  destruct analyser as [a|]; [destruct isPlaying|]; eauto.
Qed.

Hypothesis Hsin : forall x, -1 <= Math_sin x <= 1.

Lemma radius_at_least_base (isPlaying : bool) (analyser : option AnalyserNode)
    (now : nat -> Z) (r : Q) :
  visualRadius Math_sin isPlaying analyser now = Some r -> 70 <= r.
Proof.
  intros Hr. unfold visualRadius, pulse in Hr. destruct isPlaying; cbn [fst] in Hr.
  - assert (Havg : exists avg, snd (audio_data analyser) = Some avg /\ 0 <= avg).
    { destruct analyser as [a|].
      - rewrite average_eq in Hr |- *.
        destruct (bass_mean (freqData a)) as [avg|] eqn:E; [|discriminate Hr].
        exists avg. split; [reflexivity | exact (proj1 (bass_mean_range _ _ E))].
      - exists 0. split; [reflexivity | discriminate]. }
    destruct Havg as (avg & Ha & Hlo). rewrite Ha in Hr.
    cbn [option_map] in Hr. injection Hr as <-. unfold baseRadius.
    assert (E : avg / 3 == avg * (1 # 3)) by field.
    rewrite E. lra.
  - cbn [option_map] in Hr. injection Hr as <-. unfold baseRadius.
    destruct (Hsin (inject_Z (now O) / 1500)) as [Hlo Hhi]. lra.
Qed.

Lemma radii_valid (r : Q) :
  70 <= r -> nonneg (r * (15 # 10)) = true /\ nonneg (r - 5) = true.
Proof.
  intros Hr. unfold nonneg. split; apply Qle_bool_iff; lra.
Qed.

(** What a frame leaves on the canvas and in the line cap, for every
    context it may start from. *)
Lemma frame_render (canvas : Canvas) (isPlaying : bool)
    (analyser : option AnalyserNode) (now : nat -> Z) :
  let calls := fst (draw Math_sin Math_cos canvas isPlaying analyser now) in
  let cx := inject_Z (width canvas) / 2 in
  let cy := inject_Z (height canvas) / 2 in
  (forall c, bitmap (render canvas c calls) = []
             /\ lineCap (render canvas c calls) = lineCap c) \/
  (exists r tail,
      (forall c, bitmap (render canvas c calls)
                 = core_paints cx cy r (lineCap c) ++ tail) /\
      ((forall c, lineCap (render canvas c calls) = lineCap c) \/
       (forall c, lineCap (render canvas c calls) = "round"%string))).
Proof.
  cbv zeta.
  pose proof (draw_cases canvas isPlaying analyser now) as Hd. cbv zeta in Hd.
  destruct (visualRadius Math_sin isPlaying analyser now) as [r|] eqn:Hr.
  - destruct Hd as (rest & -> & Hrest). cbn [fst].
    destruct (radii_valid r (radius_at_least_base _ _ _ _ Hr)) as [Hglow Hinner].
    set (cx := inject_Z (width canvas) / 2) in *.
    set (cy := inject_Z (height canvas) / 2) in *.
    right. exists r.
    destruct Hrest as [(dataArray & binCount & ->) | (clock & ->)].
    + destruct (exec_bars canvas cx cy r
                  (spectrum_bars dataArray binCount)
                  [ArcTo cx cy (r - 5) 0 (Math_PI * 2)]) as [pth' Hbars].
      exists (map (bar_paint Math_sin Math_cos cx cy r)
                  (spectrum_bars dataArray binCount)).
      assert (Hrun : forall c,
        run canvas c
          (draw_setup (inject_Z (width canvas)) (inject_Z (height canvas))
           ++ draw_core cx cy r
           ++ draw_spectrum Math_sin Math_cos cx cy r dataArray binCount)
        = mkRun LocalGlow LocalGradient 4 "round" pth'
            (core_paints cx cy r (lineCap c)
             ++ map (bar_paint Math_sin Math_cos cx cy r)
                    (spectrum_bars dataArray binCount))
            (Some (bars_gradient cx cy)) (Some (glow_gradient cx cy r)) false).
      { intros c. unfold run. rewrite exec_setup.
        rewrite (exec_core canvas cx cy r _ _ _ _ _ _ _ Hglow Hinner).
        unfold draw_spectrum. cbn [app].
        do 3 call. rewrite cap_round_valid.
        rewrite <- (app_nil_r (flat_map _ _)).
        exact (Hbars LocalGlow (core_paints cx cy r (lineCap c))
                 (Some (glow_gradient cx cy r)) []). }
      split; [|right]; intros c; unfold render; rewrite Hrun; reflexivity.
    + destruct (exec_particles canvas cx cy r
                  (inject_Z clock / 1000) (seq 0 8)
                  [ArcTo cx cy (r - 5) 0 (Math_PI * 2)]) as [pth' Hparts].
      exists (map (particle_paint Math_sin Math_cos cx cy r (inject_Z clock / 1000))
                  (seq 0 8)).
      assert (Hrun : forall c,
        run canvas c
          (draw_setup (inject_Z (width canvas)) (inject_Z (height canvas))
           ++ draw_core cx cy r
           ++ draw_idle Math_sin Math_cos cx cy r clock)
        = mkRun (Held (Solid "rgba(16, 185, 129, 0.5)"))
            (Held (Solid "rgba(255, 255, 255, 0.1)")) 2 (lineCap c) pth'
            (core_paints cx cy r (lineCap c)
             ++ map (particle_paint Math_sin Math_cos cx cy r (inject_Z clock / 1000))
                    (seq 0 8))
            (Some (bars_gradient cx cy)) (Some (glow_gradient cx cy r)) false).
      { intros c. unfold run. rewrite exec_setup.
        rewrite (exec_core canvas cx cy r _ _ _ _ _ _ _ Hglow Hinner).
        unfold draw_idle. cbv zeta.
        call.
        rewrite <- (app_nil_r (flat_map _ _)).
        exact (Hparts (Held (Solid "rgba(255, 255, 255, 0.1)")) 2 (lineCap c)
                 (core_paints cx cy r (lineCap c))
                 (Some (bars_gradient cx cy)) (Some (glow_gradient cx cy r)) []). }
      split; [|left]; intros c; unfold render; rewrite Hrun; reflexivity.
  - rewrite Hd. cbn [fst]. left. intros c. unfold render, run.
    rewrite <- (app_nil_r (draw_setup _ _)). rewrite exec_setup.
    split; reflexivity.
Qed.

Lemma paint_frame_context (st : VisState) (c : Context) (canvas : Canvas)
    (isPlaying : bool) (analyser : option AnalyserNode) (now : nat -> Z) :
  snd (paint_frame Math_sin Math_cos st c canvas isPlaying analyser now)
  = render canvas c (fst (draw Math_sin Math_cos canvas isPlaying analyser now)).
Proof.
  unfold paint_frame.
  pose proof (frame_calls Math_sin Math_cos st canvas isPlaying analyser now) as H.
  destruct (frame Math_sin Math_cos st canvas isPlaying analyser now) as [st1 calls].
  cbn [snd] in *. rewrite H. reflexivity.
Qed.

End Parts.

(** C8, as the code has it.  A frame is a function of the playing flag,
    the analyser's snapshot, the canvas size and the clock readings it
    makes (at most two).  Two frames that agree on these issue the same
    drawing calls, whatever the frames before them left in the component
    (the pending frame handle), and leave the same paints on the canvas,
    whatever was left on the canvas (its bitmap, the current path) and
    in the context (fill style, stroke style, line width): each of these
    is set anew before the frame uses it.  The one attribute a frame
    uses before setting it is the line cap: the inner circle (line 74)
    is stroked before line 83 assigns it, so the paint at index 1
    carries the line cap the context came with, and nothing else
    differs.  After the frame the line cap is round if bars were drawn,
    and as before otherwise. *)
Theorem frame_stateless (Math_sin Math_cos : Q -> Q)
    (Hsin : forall x, -1 <= Math_sin x <= 1)
    (st st' : VisState) (c c' : Context) (canvas : Canvas) (isPlaying : bool)
    (analyser : option AnalyserNode) (now now' : nat -> Z)
    (H0 : now O = now' O) (H1 : now 1%nat = now' 1%nat) :
  let after :=
    snd (paint_frame Math_sin Math_cos st c canvas isPlaying analyser now) in
  let after' :=
    snd (paint_frame Math_sin Math_cos st' c' canvas isPlaying analyser now') in
  snd (frame Math_sin Math_cos st canvas isPlaying analyser now)
  = snd (frame Math_sin Math_cos st' canvas isPlaying analyser now') /\
  (lineCap c = lineCap c' -> bitmap after = bitmap after') /\
  (forall i, i <> 1%nat -> bitmap after !! i = bitmap after' !! i) /\
  (forall p, bitmap after !! 1%nat = Some p ->
     exists circle,
       p = Stroked circle (Solid "rgba(255, 255, 255, 0.1)") 2 (lineCap c) /\
       bitmap after' !! 1%nat
       = Some (Stroked circle (Solid "rgba(255, 255, 255, 0.1)") 2 (lineCap c'))) /\
  ((lineCap after = "round"%string /\ lineCap after' = "round"%string) \/
   (lineCap after = lineCap c /\ lineCap after' = lineCap c')).
Proof.
  cbv zeta. rewrite !paint_frame_context, !frame_calls.
  rewrite <- (draw_clock Math_sin Math_cos canvas isPlaying analyser now now' H0 H1).
  pose proof (frame_render Math_sin Math_cos Hsin canvas isPlaying analyser now) as Hf.
  cbv zeta in Hf.
  set (calls := fst (draw Math_sin Math_cos canvas isPlaying analyser now)) in *.
  split; [reflexivity|].
  destruct Hf as [Hempty | (r & tail & Hb & Hcap)].
  - destruct (Hempty c) as [Eb Ec]. destruct (Hempty c') as [Eb' Ec'].
    rewrite Eb, Eb', Ec, Ec'. repeat split.
    + intros p Hp. discriminate Hp.
    + right. split; reflexivity.
  - rewrite (Hb c), (Hb c'). unfold core_paints. cbn [app]. repeat split.
    + intros ->. reflexivity.
    + intros [|[|i]] Hi; [reflexivity | congruence | reflexivity].
    + intros p [= <-]. eexists. split; reflexivity.
    + destruct Hcap as [Hsame | Hround].
      * right. split; apply Hsame.
      * left. split; apply Hround.
Qed.

Lemma frame_stateless_witness :
  (forall x, -1 <= Samples.sin_approx x <= 1) /\
  Samples.clock_at 5 O = Samples.clock_at 5 1%nat /\
  forall i, i <> 1%nat ->
    bitmap (snd (paint_frame Samples.sin_approx Samples.cos_approx (mkVis None 1)
                   fresh_context Samples.canvas400 false (Some Samples.hum)
                   (Samples.clock_at 5))) !! i
    = bitmap (snd (paint_frame Samples.sin_approx Samples.cos_approx
                     (mkVis (Some 41%Z) 42) stale_context Samples.canvas400 false
                     (Some Samples.hum) (Samples.clock_at 5))) !! i.
Proof.
  split; [exact sin_approx_range|]. split; [reflexivity|].
  exact (proj1 (proj2 (proj2
           (frame_stateless Samples.sin_approx Samples.cos_approx sin_approx_range
              (mkVis None 1) (mkVis (Some 41%Z) 42) fresh_context stale_context
              Samples.canvas400 false (Some Samples.hum)
              (Samples.clock_at 5) (Samples.clock_at 5) eq_refl eq_refl)))).
Defined.

(** The line cap does travel from frame to frame: on a new context an
    idle frame strokes the inner circle with the cap butt; once a frame
    has drawn bars the same idle frame strokes it with the cap round.
    (On a full circle a round cap lies within the stroke it ends, so
    this is a difference of the attribute the stroke is made with.) *)
Example line_cap_carried_over :
  let idle (c : Context) :=
    snd (paint_frame Samples.sin_approx Samples.cos_approx (mkVis None 1) c
           Samples.canvas400 false (Some Samples.hum) (Samples.clock_at 5)) in
  let played :=
    snd (paint_frame Samples.sin_approx Samples.cos_approx (mkVis None 1)
           fresh_context Samples.canvas400 true (Some Samples.hum)
           (Samples.clock_at 5)) in
  lineCap played = "round"%string /\
  bitmap (idle fresh_context) !! 1%nat
  = Some (Stroked [ArcTo (400 / 2) (400 / 2) (70 + (Samples.sin_approx (5 / 1500) * 5 + 5) - 5)
                         0 (Math_PI * 2)]
                  (Solid "rgba(255, 255, 255, 0.1)") 2 "butt") /\
  bitmap (idle played) !! 1%nat
  = Some (Stroked [ArcTo (400 / 2) (400 / 2) (70 + (Samples.sin_approx (5 / 1500) * 5 + 5) - 5)
                         0 (Math_PI * 2)]
                  (Solid "rgba(255, 255, 255, 0.1)") 2 "round").
Proof.
  cbv zeta. repeat split; vm_compute; reflexivity.
Qed.

End RadarCanvas.
